(** * file-download-utility: the download loop of [app.py]

  A shallow embedding of the script [app.py]: the login, the loop over
  [config.DOWNLOAD_ACTIONS], the fallback loop over the candidates of one
  download action and the zip extraction that follows it.

  The script talks to three outside parties: the remote server (through a
  [requests.Session]), the file system ([open], [shutil], [pathlib]) and
  the [zipfile] library.  Their behaviour is not in the source, so the
  script is embedded over an abstract environment [Env W], where [W] is the
  state of the outside world; every library call may return or raise.
  The module [Sim] gives one concrete environment, used to run the script
  on concrete configurations. *)

From Stdlib Require Import ZArith NArith Ascii String List Bool Lia.
From stdpp Require Import base option gmap strings.
Import ListNotations.

Local Open Scope string_scope.
Local Open Scope list_scope.

(** ** Python strings

  [str] values are modelled as [string], one character per code point
  below 256.  The functions of this module are those of [str] on ASCII
  text: [upper] and [strip] below agree with [str.upper] and [str.strip]
  on the strings that [is_ascii] accepts, as are all the strings of
  [config.py].  Outside ASCII Python also maps letters such as U+017F and
  strips spaces such as U+00A0; what is proved of a string from its
  rejection by [upper] and [strip] is therefore stated for [is_ascii]
  strings only. *)
Module PyStr.

Definition code (c : ascii) : N := N_of_ascii c.

(** [s.isascii()] *)
Fixpoint is_ascii (s : string) : bool :=
  match s with
  | EmptyString => true
  | String c s' => (code c <? 128)%N && is_ascii s'
  end.

(** ['a' <= c <= 'z'] *)
Definition is_lower (c : ascii) : bool :=
  (97 <=? code c)%N && (code c <=? 122)%N.


Definition upper_char (c : ascii) : ascii :=
  if is_lower c then ascii_of_N (code c - 32) else c.


(** [s.upper()], for ASCII [s] *)
Fixpoint upper (s : string) : string :=
  match s with
  | EmptyString => EmptyString
  | String c s' => String (upper_char c) (upper s')
  end.


(** The ASCII characters [str.strip()] removes: TAB, LF, VT, FF, CR,
    FS, GS, RS, US and the space. *)
Definition is_space (c : ascii) : bool :=
  ((9 <=? code c)%N && (code c <=? 13)%N)
  || ((28 <=? code c)%N && (code c <=? 32)%N).

Fixpoint all_space (s : string) : bool :=
  match s with
  | EmptyString => true
  | String c s' => is_space c && all_space s'
  end.

Fixpoint lstrip (s : string) : string :=
  match s with
  | EmptyString => EmptyString
  | String c s' => if is_space c then lstrip s' else s
  end.

Fixpoint rstrip (s : string) : string :=
  match s with
  | EmptyString => EmptyString
  | String c s' =>
      match rstrip s' with
      | EmptyString => if is_space c then EmptyString else String c EmptyString
      | r => String c r
      end
  end.

(** [s.strip()], for ASCII [s] *)
Definition strip (s : string) : string := rstrip (lstrip s).

(** [s.split(sep)] for a one-character separator: the pieces between the
    occurrences of [sep]; never the empty list. *)
Fixpoint split (sep : ascii) (s : string) : list string :=
  match s with
  | EmptyString => [EmptyString]
  | String c s' =>
      if Ascii.eqb c sep then EmptyString :: split sep s'
      else match split sep s' with
           | [] => [String c EmptyString]
           | p :: ps => String c p :: ps
           end
  end.

(** [s] cut before the first occurrence of [sep] (all of [s] when [sep]
    does not occur): what the specification calls the stem of a
    filename. *)
Fixpoint truncate_at_first (sep : ascii) (s : string) : string :=
  match s with
  | EmptyString => EmptyString
  | String c s' =>
      if Ascii.eqb c sep then EmptyString
      else String c (truncate_at_first sep s')
  end.

Fixpoint contains (sep : ascii) (s : string) : bool :=
  match s with
  | EmptyString => false
  | String c s' => Ascii.eqb c sep || contains sep s'
  end.

End PyStr.

(** ** Data model *)

(** The [metadata] dictionary of a download action: form data for a POST,
    query parameters for a GET. *)
Definition Metadata := list (string * string).

(** One dictionary of [config.DOWNLOAD_ACTIONS].  The last two keys are
    [None] in [config.py] when [extract_zip] is [False]. *)
Record Candidate := {
  URL : string;
  method : string;
  metadata : Metadata;
  filename : string;
  extract_zip : bool;
  zip_member_to_extract : option string;
  zip_member_final_destination : option string
}.

(** A value of [config.DOWNLOAD_ACTIONS]: a dict or a list of dicts. *)
Inductive ActionValue :=
| Single (d : Candidate)
| Multiple (l : list Candidate).

(** The constants of [config.py]; [DOWNLOAD_ACTIONS] is an ordered dict,
    kept as the list of its items. *)
Record Config := {
  LOG_DIRECTORY : string;
  LOG_FILE_NAME : string;
  DOWNLOAD_ARCHIVE_DIRECTORY : string;
  BASE_URL : string;
  LOGIN_PATH : string;
  LOGIN_HEADERS : Metadata;
  DOWNLOAD_ACTIONS : list (string * ActionValue)
}.

(** [requests.Response]: the status line and the body that [raw] streams. *)
Record Response := {
  status_code : Z;
  raw : string
}.

(** [requests.codes.ok] *)
Definition codes_ok : Z := 200.

(** ** Log records and exceptions *)

Inductive Level := DEBUG | INFO | WARNING | ERROR.

(** The messages of the script, one constructor per f-string of [app.py],
    with the values it interpolates. *)
Inductive Msg :=
| MLoggingInitiated
| MDownloadArchivePath (p : string)
| MMustBeDirectory (p : string)
| MNowLoggingInto (base_url : string)
| MHttpHeaders
| MUnableToConnect
| MNowAttempting (k : string) (meth : string) (md : Metadata)
| MFullInstructions (v : Candidate)
| MUnsupported (v : Candidate) (meth : string)
| MStarted (k : string)
| MCompleted (k : string)
| MUnsuccessful (k : string)
| MNotStarted (k : string) (meth : string) (md : Metadata)
| MNoIteration (k : string)
| MNowExtracting (member : option string) (k : string)
| MExtracted (member : option string) (k : string)
| MNotExtracted (member : option string) (k : string)
| MFinalExists (p : string) (member : option string)
| MFinalNotYet (p : string) (member : option string)
| MCopied (member : option string) (p : string)
| MNotCopied (member : option string) (p : string)
| MNotValidZip (k : string)
| MTotalTime
| MNameNotDefined (name : string)
| MText (s : string).

(** The exception classes that the script names or that reach it. *)
Inductive ExcClass :=
| Exception
| OSError
| FileExistsError
| FileNotFoundError
| NotADirectoryError
| PermissionError
| RequestException
| RequestsConnectionError
| HTTPError
| ProtocolError
| BadZipFile
| ValueError
| KeyError
| NameError
| TypeError.

#[global] Instance ExcClass_eq_dec : EqDecision ExcClass.
  Proof. solve_decision. Defined.

(** [IOError] is an alias of [OSError]. *)
Definition IOError : ExcClass := OSError.

(** The direct base class; [requests.exceptions.RequestException] derives
    from [IOError].  [ProtocolError] is the one of [urllib3], raised when
    the connection breaks while [raw] is read; it is no [OSError] and no
    [RequestException]. *)
Definition base_class (c : ExcClass) : option ExcClass :=
  match c with
  | Exception => None
  | OSError => Some Exception
  | FileExistsError | FileNotFoundError | NotADirectoryError
  | PermissionError | RequestException => Some OSError
  | RequestsConnectionError | HTTPError => Some RequestException
  | ProtocolError | BadZipFile | ValueError | KeyError | NameError
  | TypeError => Some Exception
  end.

Fixpoint issubclass_upto (n : nat) (c d : ExcClass) : bool :=
  bool_decide (c = d)
  || match n, base_class c with
     | S n', Some b => issubclass_upto n' b d
     | _, _ => false
     end.

(** The class hierarchy above is three levels deep. *)
Definition issubclass : ExcClass -> ExcClass -> bool := issubclass_upto 3.

Record Exc := {
  exc_class : ExcClass;
  exc_msg : Msg
}.

(** What an [except (c1, c2, ...)] clause catches. *)
Definition caught_by (classes : list ExcClass) (e : Exc) : bool :=
  existsb (issubclass (exc_class e)) classes.
Arguments caught_by : simpl never.

Inductive Outcome (A : Type) :=
| Returns (a : A)
| Raises (e : Exc).
Arguments Returns {A} a.
Arguments Raises {A} e.

(** ** The outside world *)

(** The library calls of the script, over the state [W] of the outside
    world.  Paths are kept as strings.  [is_zipfile] answers without
    raising ([zipfile.is_zipfile] swallows [OSError]); [path_exists],
    which is [pathlib.Path.exists], raises the [OSError]s it does not
    take for an absent file.  [fp_close] is the exit of [with open(...)],
    which flushes and closes the file. *)
Record Env (W : Type) := {
  joinpath : string -> string -> string;
  mkdir : string -> W -> Outcome unit * W;
  session_post : string -> Metadata -> bool -> W -> Outcome Response * W;
  session_get : string -> Metadata -> bool -> W -> Outcome Response * W;
  open_wb : string -> W -> Outcome unit * W;
  copyfileobj : Response -> string -> W -> Outcome unit * W;
  fp_close : string -> W -> Outcome unit * W;
  is_zipfile : string -> W -> bool;
  ZipFile : string -> W -> Outcome unit * W;
  zip_extract : string -> option string -> string -> W -> Outcome unit * W;
  path_exists : string -> W -> Outcome bool * W;
  copy2 : string -> string -> W -> Outcome unit * W
}.
Arguments joinpath {W} _ _ _.
Arguments mkdir {W} _ _ _.
Arguments session_post {W} _ _ _ _ _.
Arguments session_get {W} _ _ _ _ _.
Arguments open_wb {W} _ _ _.
Arguments copyfileobj {W} _ _ _ _.
Arguments fp_close {W} _ _ _.
Arguments is_zipfile {W} _ _ _.
Arguments ZipFile {W} _ _ _.
Arguments zip_extract {W} _ _ _ _ _.
Arguments path_exists {W} _ _ _.
Arguments copy2 {W} _ _ _ _.

(** What the script does to the outside, in order. *)
Inductive Event :=
| ELog (lvl : Level) (m : Msg)
| EMkdir (p : string)
| EPost (url : string) (data : Metadata) (stream : bool)
| EGet (url : string) (params : Metadata) (stream : bool)
| EOpen (p : string)
| ECopyfileobj (p : string)
| EClose (p : string)
| EIsZipfile (p : string)
| EZipFile (p : string)
| EExtract (zip : string) (member : option string) (dir : string)
| EExists (p : string)
| ECopy2 (src dst : string).

(** The state of a run: the outside world, the events so far, and the two
    module-level variables that are read after the loop that binds them
    ([None]: not yet bound). *)
Record St (W : Type) := {
  world : W;
  trace : list Event;
  var_v : option Candidate;
  var_download_destination : option string
}.
Arguments world {W} _.
Arguments trace {W} _.
Arguments var_v {W} _.
Arguments var_download_destination {W} _.

Definition initial {W : Type} (w : W) : St W :=
  {| world := w; trace := []; var_v := None;
     var_download_destination := None |}.

(** ** A state and exception monad *)
Section Monad.
Context {W : Type}.

Definition M (A : Type) : Type := St W -> Outcome A * St W.

Definition ret {A : Type} (a : A) : M A := fun st => (Returns a, st).

Definition bind {A B : Type} (m : M A) (f : A -> M B) : M B :=
  fun st =>
    match m st with
    | (Returns a, st') => f a st'
    | (Raises e, st') => (Raises e, st')
    end.

Definition raise {A : Type} (c : ExcClass) (m : Msg) : M A :=
  fun st => (Raises {| exc_class := c; exc_msg := m |}, st).

(** [try: body except classes: handler] *)
Definition try_except {A : Type} (body : M A) (classes : list ExcClass)
    (handler : M A) : M A :=
  fun st =>
    match body st with
    | (Returns a, st') => (Returns a, st')
    | (Raises e, st') =>
        if caught_by classes e then handler st' else (Raises e, st')
    end.

(** [with ...: body]: the exit of the context manager runs however the
    body ends (it returns, breaks out of the loop or raises); when the
    exit raises, that is the exception of the statement. *)
Definition with_exit {A : Type} (body : M A) (exit : M unit) : M A :=
  fun st =>
    let (r, st1) := body st in
    match exit st1 with
    | (Returns _, st2) => (r, st2)
    | (Raises e, st2) => (Raises e, st2)
    end.

Definition emit (ev : Event) : M unit :=
  fun st =>
    (Returns tt,
     {| world := world st; trace := trace st ++ [ev]; var_v := var_v st;
        var_download_destination := var_download_destination st |}).

(** A library call that may change the world and may raise. *)
Definition call {A : Type} (ev : Event) (op : W -> Outcome A * W) : M A :=
  fun st =>
    let (r, w') := op (world st) in
    (r,
     {| world := w'; trace := trace st ++ [ev]; var_v := var_v st;
        var_download_destination := var_download_destination st |}).

(** A library call that only inspects the world. *)
Definition ask (ev : Event) (q : W -> bool) : M bool :=
  call ev (fun w => (Returns (q w), w)).

Definition logger (lvl : Level) (m : Msg) : M unit := emit (ELog lvl m).

(** [logger.exception(m)] logs at level ERROR. *)
Definition logger_exception (m : Msg) : M unit := emit (ELog ERROR m).

Definition set_v (c : Candidate) : M unit :=
  fun st =>
    (Returns tt,
     {| world := world st; trace := trace st; var_v := Some c;
        var_download_destination := var_download_destination st |}).

Definition set_download_destination (p : string) : M unit :=
  fun st =>
    (Returns tt,
     {| world := world st; trace := trace st; var_v := var_v st;
        var_download_destination := Some p |}).

(** Reading a module-level name: [NameError] when it is not bound. *)
Definition get_v : M Candidate :=
  fun st =>
    match var_v st with
    | Some c => (Returns c, st)
    | None => raise NameError (MNameNotDefined "v") st
    end.

Definition get_download_destination : M string :=
  fun st =>
    match var_download_destination st with
    | Some p => (Returns p, st)
    | None => raise NameError (MNameNotDefined "download_destination") st
    end.

(** A value used where a [str] is required: [TypeError] for [None]. *)
Definition require_str (o : option string) : M string :=
  match o with
  | Some s => ret s
  | None => raise TypeError (MText "expected str, not NoneType")
  end.

(** The state [st] after the world has become [w] and the events [evs]
    have happened. *)
Definition advance (st : St W) (w : W) (evs : list Event) : St W :=
  {| world := w; trace := trace st ++ evs; var_v := var_v st;
     var_download_destination := var_download_destination st |}.

(** A computation that only adds to the trace. *)
Definition appends {A : Type} (m : M A) : Prop :=
  forall st, exists evs, trace (snd (m st)) = trace st ++ evs.

(** A computation that only adds events that satisfy [P]. *)
Definition emits {A : Type} (P : Event -> Prop) (m : M A) : Prop :=
  forall st,
    exists evs, trace (snd (m st)) = trace st ++ evs /\ Forall P evs.

End Monad.
Arguments M W A : clear implicits.

Notation "x <- c1 ;; c2" := (bind c1 (fun x => c2))
(at level 100, c1 at next level, right associativity).
Notation "c1 ;; c2" := (bind c1 (fun _ => c2))
(at level 100, right associativity).

(** ** The script *)

(** How one pass through the body of [for v in v_list] ends. *)
Inductive LoopCtl := Break | Next.

(** How the [for] loop ends: by [break], or by running out of items (the
  case in which its [else] clause runs). *)
Inductive LoopExit := ByBreak | Exhausted.

Section Script.
Context {W : Type} (env : Env W) (config : Config).

(** [log_directory = pathlib.Path(config.LOG_DIRECTORY)] *)
Definition log_directory : string := LOG_DIRECTORY config.

(** [download_directory = pathlib.Path(config.DOWNLOAD_ARCHIVE_DIRECTORY)] *)
Definition download_directory : string := DOWNLOAD_ARCHIVE_DIRECTORY config.

(** Lines 50-56. *)
Definition create_log_directory : M W unit :=
  try_except
    (call (EMkdir log_directory) (mkdir env log_directory))
    [FileExistsError]
    (raise NotADirectoryError (MMustBeDirectory log_directory)).

(** Lines 88-95. *)
Definition create_download_directory : M W unit :=
  logger INFO (MDownloadArchivePath download_directory) ;;
  try_except
    (call (EMkdir download_directory) (mkdir env download_directory))
    [FileExistsError]
    (logger_exception (MMustBeDirectory download_directory) ;;
     raise NotADirectoryError (MMustBeDirectory download_directory)).

(** [response.raise_for_status()]: [HTTPError] for a 4xx or 5xx status. *)
Definition raise_for_status (r : Response) : M W unit :=
  if ((400 <=? status_code r) && (status_code r <? 600))%Z
  then raise HTTPError (MText "HTTP error status")
  else ret tt.

(** Lines 98-110. *)
Definition login : M W unit :=
  logger INFO (MNowLoggingInto (BASE_URL config)) ;;
  try_except
    (login_response <-
       call (EPost (BASE_URL config ++ LOGIN_PATH config)
               (LOGIN_HEADERS config) false)
         (session_post env (BASE_URL config ++ LOGIN_PATH config)
            (LOGIN_HEADERS config) false) ;;
     logger DEBUG MHttpHeaders ;;
     raise_for_status login_response)
    [RequestException]
    (logger_exception MUnableToConnect ;;
     raise RequestsConnectionError MUnableToConnect).

(** Lines 123-138: the request of one candidate. *)
Definition request (v : Candidate) : M W Response :=
  if String.eqb (PyStr.strip (PyStr.upper (method v))) "POST" then
    call (EPost (URL v) (metadata v) true)
      (session_post env (URL v) (metadata v) true)
  else if String.eqb (PyStr.strip (PyStr.upper (method v))) "GET" then
    call (EGet (URL v) (metadata v) true)
      (session_get env (URL v) (metadata v) true)
  else
    (logger_exception (MUnsupported v (method v)) ;;
     raise ValueError (MUnsupported v (method v))).

(** Lines 117-155: the body of [for v in v_list].  Lines 143-147 are a
    [with] statement: the file is closed on the way out of it, also when
    the way out is the [break] of line 147, and an error of the close is
    raised inside the [try] of line 142. *)
Definition loop_body (k : string) (v : Candidate) : M W LoopCtl :=
  set_v v ;;
  logger INFO (MNowAttempting k (method v) (metadata v)) ;;
  logger DEBUG (MFullInstructions v) ;;
  download_response <- request v ;;
  if (status_code download_response =? codes_ok)%Z then
    (logger INFO (MStarted k) ;;
     let download_destination :=
       joinpath env download_directory (filename v) in
     set_download_destination download_destination ;;
     try_except
       (call (EOpen download_destination)
          (open_wb env download_destination) ;;
        with_exit
          (call (ECopyfileobj download_destination)
             (copyfileobj env download_response download_destination) ;;
           logger INFO (MCompleted k) ;;
           ret Break)
          (call (EClose download_destination)
             (fp_close env download_destination)))
       [RequestsConnectionError; IOError]
       (logger_exception (MUnsuccessful k) ;; ret Next))
  else
    (logger WARNING (MNotStarted k (method v) (metadata v)) ;; ret Next).

(** Lines 117-155: the iteration, without the [else] clause. *)
Fixpoint for_v_in (k : string) (v_list : list Candidate) : M W LoopExit :=
  match v_list with
  | [] => ret Exhausted
  | v :: rest =>
      ctl <- loop_body k v ;;
      match ctl with
      | Break => ret ByBreak
      | Next => for_v_in k rest
      end
  end.

(** Lines 117-157: the loop with its [else] clause. *)
Definition candidate_loop (k : string) (v_list : list Candidate)
  : M W LoopExit :=
  e <- for_v_in k v_list ;;
  match e with
  | ByBreak => ret ByBreak
  | Exhausted => logger ERROR (MNoIteration k) ;; ret Exhausted
  end.

(** Lines 164-166: [download_directory / v['filename'].split('.')[0]] *)
Definition zip_file_contents_directory (v : Candidate) : string :=
  joinpath env download_directory
    (nth 0 (PyStr.split "." (filename v)) "").

(** Lines 167-181. *)
Definition extract_member (k : string) (v : Candidate)
    (download_destination : string) : M W unit :=
  try_except
    (call (EZipFile download_destination)
       (ZipFile env download_destination) ;;
     call (EExtract download_destination (zip_member_to_extract v)
             (zip_file_contents_directory v))
       (zip_extract env download_destination (zip_member_to_extract v)
          (zip_file_contents_directory v)) ;;
     logger INFO (MExtracted (zip_member_to_extract v) k))
    [BadZipFile; IOError]
    (logger_exception (MNotExtracted (zip_member_to_extract v) k)).

(** Lines 182-206. *)
Definition copy_member (v : Candidate) : M W unit :=
  final_destination <- require_str (zip_member_final_destination v) ;;
  found <- call (EExists final_destination)
             (path_exists env final_destination) ;;
  (if found : bool
   then logger WARNING
          (MFinalExists final_destination (zip_member_to_extract v))
   else logger INFO
          (MFinalNotYet final_destination (zip_member_to_extract v))) ;;
  try_except
    (member <- require_str (zip_member_to_extract v) ;;
     call (ECopy2 (joinpath env (zip_file_contents_directory v) member)
             final_destination)
       (copy2 env (joinpath env (zip_file_contents_directory v) member)
          final_destination) ;;
     logger INFO (MCopied (zip_member_to_extract v) final_destination))
    [IOError]
    (logger_exception
       (MNotCopied (zip_member_to_extract v) final_destination)).

(** Lines 159-208: what follows the candidate loop.  [v] and
    [download_destination] are whatever the loops so far left in them. *)
Definition extraction (k : string) : M W unit :=
  v <- get_v ;;
  if extract_zip v then
    (download_destination <- get_download_destination ;;
     valid <- ask (EIsZipfile download_destination)
                (is_zipfile env download_destination) ;;
     if valid : bool then
       (logger INFO (MNowExtracting (zip_member_to_extract v) k) ;;
        extract_member k v download_destination ;;
        copy_member v)
     else
       logger ERROR (MNotValidZip k))
  else ret tt.

(** Lines 115-116. *)
Definition as_list (v_list : ActionValue) : list Candidate :=
  match v_list with
  | Single d => [d]
  | Multiple l => l
  end.

(** Lines 115-208: one item of [config.DOWNLOAD_ACTIONS]. *)
Definition download_action (k : string) (v_list : ActionValue) : M W unit :=
  candidate_loop k (as_list v_list) ;;
  extraction k.

(** Lines 114-208. *)
Fixpoint download_actions (items : list (string * ActionValue)) : M W unit :=
  match items with
  | [] => ret tt
  | (k, v_list) :: rest =>
      download_action k v_list ;; download_actions rest
  end.

(** The whole script.  Setting up the log handlers (lines 58-77) is taken
    not to fail. *)
Definition main : M W unit :=
  create_log_directory ;;
  logger INFO MLoggingInitiated ;;
  create_download_directory ;;
  login ;;
  download_actions (DOWNLOAD_ACTIONS config) ;;
  logger INFO MTotalTime.

End Script.

(** ** A concrete outside world

  A small file system (regular files by path), a remote server that
  answers by URL, a list of paths that cannot be written, a bound on
  file length, a list of paths whose file cannot be flushed when it is
  closed and a list of paths whose download loses its connection while
  the body is read.  A zip archive with one member [name] holding [data]
  is the byte string ["PK" ++ name ++ "=" ++ data]. *)
Module Sim.

Record World := {
  files : gmap string string;
  routes : list (string * Response);
  read_only : list string;
  quota : nat;
  unflushable : list string;
  dropped : list string
}.

Definition with_files (f : gmap string string) (w : World) : World :=
  {| files := f; routes := routes w; read_only := read_only w;
     quota := quota w; unflushable := unflushable w;
     dropped := dropped w |}.

Definition exc {A : Type} (c : ExcClass) (s : string) : Outcome A :=
  Raises {| exc_class := c; exc_msg := MText s |}.

Fixpoint after_first (sep : ascii) (s : string) : string :=
  match s with
  | EmptyString => EmptyString
  | String c s' => if Ascii.eqb c sep then s' else after_first sep s'
  end.

Definition zip_of (name data : string) : string :=
  "PK" ++ name ++ "=" ++ data.

(** The member of an archive, if the bytes are a well-formed archive. *)
Definition unzip (s : string) : option (string * string) :=
  match s with
  | String "P" (String "K" rest) =>
      if PyStr.contains "=" rest
      then Some (PyStr.truncate_at_first "=" rest, after_first "=" rest)
      else None
  | _ => None
  end.

Fixpoint route (url : string) (rs : list (string * Response))
  : option Response :=
  match rs with
  | [] => None
  | (u, r) :: rs' => if String.eqb u url then Some r else route url rs'
  end.

Definition listed (p : string) (ps : list string) : bool :=
  existsb (String.eqb p) ps.

Definition sim_joinpath (d s : string) : string := d ++ "/" ++ s.

Definition sim_mkdir (p : string) (w : World) : Outcome unit * World :=
  match files w !! p with
  | Some _ => (exc FileExistsError "File exists", w)
  | None => (Returns tt, w)
  end.

Definition sim_send (url : string) (md : Metadata) (stream : bool)
    (w : World) : Outcome Response * World :=
  match route url (routes w) with
  | Some r => (Returns r, w)
  | None => (exc RequestsConnectionError "Failed to establish a connection", w)
  end.

(** [open(p, 'wb')] truncates the file. *)
Definition sim_open_wb (p : string) (w : World) : Outcome unit * World :=
  if listed p (read_only w)
  then (exc PermissionError "Permission denied", w)
  else (Returns tt, with_files (<[p := ""]> (files w)) w).

(** The body is written up to the quota; what was written stays. *)
Definition write_body (r : Response) (p : string) (w : World)
  : Outcome unit * World :=
  if (String.length (raw r) <=? quota w)%nat
  then (Returns tt, with_files (<[p := raw r]> (files w)) w)
  else (exc OSError "No space left on device",
        with_files (<[p := substring 0 (quota w) (raw r)]> (files w)) w).

(** A dropped connection is reported by [urllib3], before anything is
    written. *)
Definition sim_copyfileobj (r : Response) (p : string) (w : World)
  : Outcome unit * World :=
  if listed p (dropped w)
  then (exc ProtocolError "Connection broken", w)
  else write_body r p w.

Definition sim_close (p : string) (w : World) : Outcome unit * World :=
  if listed p (unflushable w)
  then (exc OSError "Input/output error", w)
  else (Returns tt, w).

Definition sim_is_zipfile (p : string) (w : World) : bool :=
  match files w !! p with
  | Some (String "P" (String "K" _)) => true
  | _ => false
  end.

Definition sim_ZipFile (p : string) (w : World) : Outcome unit * World :=
  match files w !! p with
  | None => (exc FileNotFoundError "No such file or directory", w)
  | Some s =>
      match unzip s with
      | Some _ => (Returns tt, w)
      | None => (exc BadZipFile "File is not a zip file", w)
      end
  end.

Definition sim_extract (p : string) (member : option string) (dir : string)
    (w : World) : Outcome unit * World :=
  match member, files w !! p ≫= unzip with
  | Some m, Some (name, data) =>
      if String.eqb m name
      then (Returns tt,
            with_files (<[sim_joinpath dir m := data]> (files w)) w)
      else (exc KeyError "There is no item named so in the archive", w)
  | _, _ => (exc KeyError "There is no item named so in the archive", w)
  end.

(** [Path.exists()] takes a missing file for an answer and raises the
    other errors of [stat], here that of a name of more than 255
    characters. *)
Definition sim_exists (p : string) (w : World) : Outcome bool * World :=
  if (255 <? String.length p)%nat
  then (exc OSError "File name too long", w)
  else match files w !! p with
       | Some _ => (Returns true, w)
       | None => (Returns false, w)
       end.

Definition sim_copy2 (src dst : string) (w : World)
  : Outcome unit * World :=
  match files w !! src with
  | None => (exc FileNotFoundError "No such file or directory", w)
  | Some s =>
      if listed dst (read_only w)
      then (exc PermissionError "Permission denied", w)
      else (Returns tt, with_files (<[dst := s]> (files w)) w)
  end.

Definition env : Env World :=
  {| joinpath := sim_joinpath;
     mkdir := sim_mkdir;
     session_post := sim_send;
     session_get := sim_send;
     open_wb := sim_open_wb;
     copyfileobj := sim_copyfileobj;
     fp_close := sim_close;
     is_zipfile := sim_is_zipfile;
     ZipFile := sim_ZipFile;
     zip_extract := sim_extract;
     path_exists := sim_exists;
     copy2 := sim_copy2 |}.

(** A server with a login page, an image, an archive and two pages that
    answer with an error status. *)
Definition server : list (string * Response) :=
  [ ("http://h/login", {| status_code := 200; raw := "welcome" |});
    ("http://h/a.png", {| status_code := 200; raw := "image-bytes" |});
    ("http://h/b.png", {| status_code := 200; raw := "png2" |});
    ("http://h/d.zip", {| status_code := 200; raw := zip_of "m.csv" "1,2" |});
    ("http://h/bad.zip", {| status_code := 200; raw := "PKgarbage" |});
    ("http://h/gone", {| status_code := 404; raw := "not found" |});
    ("http://h/down", {| status_code := 500; raw := "oops" |}) ].

Definition world0 : World :=
  {| files := ∅; routes := server; read_only := []; quota := 64;
     unflushable := []; dropped := [] |}.

Definition cfg (actions : list (string * ActionValue)) : Config :=
  {| LOG_DIRECTORY := "logs";
     LOG_FILE_NAME := "script.log";
     DOWNLOAD_ARCHIVE_DIRECTORY := "arch";
     BASE_URL := "http://h/";
     LOGIN_PATH := "login";
     LOGIN_HEADERS := [("custname", "u")];
     DOWNLOAD_ACTIONS := actions |}.

(** A plain download action: no extraction. *)
Definition plain (meth url file : string) : Candidate :=
  {| URL := url; method := meth; metadata := []; filename := file;
     extract_zip := false; zip_member_to_extract := None;
     zip_member_final_destination := None |}.

(** A download action that extracts [member] and copies it to [dest]. *)
Definition zipped (meth url file member dest : string) : Candidate :=
  {| URL := url; method := meth; metadata := []; filename := file;
     extract_zip := true; zip_member_to_extract := Some member;
     zip_member_final_destination := Some dest |}.

(** The same world with a server that answers every URL (404 for one it
    does not know) and a connection that never breaks while a body is
    read. *)
Definition calm_send (url : string) (md : Metadata) (stream : bool)
    (w : World) : Outcome Response * World :=
  match route url (routes w) with
  | Some r => (Returns r, w)
  | None => (Returns {| status_code := 404; raw := "" |}, w)
  end.

Definition calm : Env World :=
  {| joinpath := sim_joinpath;
     mkdir := sim_mkdir;
     session_post := calm_send;
     session_get := calm_send;
     open_wb := sim_open_wb;
     copyfileobj := write_body;
     fp_close := sim_close;
     is_zipfile := sim_is_zipfile;
     ZipFile := sim_ZipFile;
     zip_extract := sim_extract;
     path_exists := sim_exists;
     copy2 := sim_copy2 |}.

(** Worlds and candidates of the runs below. *)
Definition world_ro : World :=
  {| files := ∅; routes := server; read_only := ["arch/ro.png"];
     quota := 64;
     unflushable := []; dropped := [] |}.

Definition world_old : World :=
  {| files := {[ "out/m.csv" := "old" ]}; routes := server;
     read_only := []; quota := 64;
     unflushable := []; dropped := [] |}.

Definition world_stale : World :=
  {| files := {[ "arch/d/m.csv" := "stale" ]}; routes := server;
     read_only := []; quota := 64;
     unflushable := []; dropped := [] |}.

Definition img_ro : Candidate := plain "get" "http://h/a.png" "ro.png".
Definition img_a : Candidate := plain " Get " "http://h/a.png" "a.png".
Definition img_b : Candidate := plain "GET" "http://h/b.png" "b.png".
Definition img_gone : Candidate := plain "post" "http://h/gone" "g.png".
Definition img_down : Candidate := plain "get" "http://h/down" "x.png".
Definition img_put : Candidate := plain "put" "http://h/a.png" "a.png".
Definition zip_ok : Candidate :=
  zipped "post" "http://h/d.zip" "d.v2.zip" "m.csv" "out/m.csv".
Definition zip_gone : Candidate :=
  zipped "get" "http://h/gone" "e.zip" "m.csv" "out/e.csv".
Definition zip_bad : Candidate :=
  zipped "get" "http://h/bad.zip" "d.zip" "m.csv" "out/m.csv".

(** Worlds in which setting up fails: a regular file where a directory
    is to be made, and a server that refuses the login. *)
Definition world_logs_taken : World :=
  {| files := {[ "logs" := "a file" ]}; routes := server; read_only := [];
     quota := 64;
     unflushable := []; dropped := [] |}.

Definition world_arch_taken : World :=
  {| files := {[ "arch" := "a file" ]}; routes := server; read_only := [];
     quota := 64;
     unflushable := []; dropped := [] |}.

Definition world_refused : World :=
  {| files := ∅;
     routes := ("http://h/login", {| status_code := 403; raw := "" |})
               :: server;
     read_only := []; quota := 64;
     unflushable := []; dropped := [] |}.

(** A world whose disk takes files of up to four bytes. *)
Definition world_full : World :=
  {| files := ∅; routes := server; read_only := []; quota := 4;
     unflushable := []; dropped := [] |}.

Definition img_nowhere : Candidate :=
  plain "get" "http://elsewhere/a.png" "a.png".
Definition zip_other_member : Candidate :=
  zipped "get" "http://h/d.zip" "d.zip" "absent.csv" "out/m.csv".
Definition zip_no_destination : Candidate :=
  {| URL := "http://h/d.zip"; method := "get"; metadata := [];
     filename := "d.zip"; extract_zip := true;
     zip_member_to_extract := Some "m.csv";
     zip_member_final_destination := None |}.
Definition zip_no_member : Candidate :=
  {| URL := "http://h/d.zip"; method := "get"; metadata := [];
     filename := "d.zip"; extract_zip := true;
     zip_member_to_extract := None;
     zip_member_final_destination := Some "out/m.csv" |}.

(** A world with the server of [config.py]. *)
Definition world_httpbin : World :=
  {| files := ∅;
     routes :=
       [("http://httpbin.org/post", {| status_code := 200; raw := "{}" |});
        ("http://httpbin.org/image/png",
         {| status_code := 200; raw := "png-bytes" |});
        ("http://httpbin.org/image/jpeg",
         {| status_code := 200; raw := "jpeg-bytes" |});
        ("http://httpbin.org/image/svg",
         {| status_code := 200; raw := "svg-bytes" |})];
     read_only := []; quota := 64;
     unflushable := []; dropped := [] |}.

Definition plain_archive : Candidate :=
  zipped "get" "http://h/d.zip" "archive" "m.csv" "out/m.csv".



(** A final destination whose name the file system does not take. *)
Definition long_name : string :=
  String.concat "" (List.repeat "0123456789abcdef" 17).

Definition zip_long_destination : Candidate :=
  zipped "get" "http://h/bad.zip" "d.zip" "m.csv" long_name.

(** A broken archive from which no member is named. *)
Definition zip_bad_no_member : Candidate :=
  {| URL := "http://h/bad.zip"; method := "get"; metadata := [];
     filename := "d.zip"; extract_zip := true;
     zip_member_to_extract := None;
     zip_member_final_destination := Some "out/m.csv" |}.

End Sim.


(** ** Vocabulary of the properties

    What happens in the outside world when one candidate is tried: the
    words in which the properties below speak of a candidate that returns
    HTTP 200, returns another status, or errors during the streamed
    write.  [StreamFailed e]: the copy raised and the file was closed, [e]
    being what the [with] statement raises (the exception of the close
    when that raised too); [CloseFailed e]: the body was written and
    closing the file raised [e]. *)

Inductive Attempt :=
| Unsupported
| NoResponse (e : Exc)
| Non200 (status : Z)
| OpenFailed (e : Exc)
| StreamFailed (e : Exc)
| CloseFailed (e : Exc)
| Complete.

Section Attempts.
Context {W : Type} (env : Env W) (config : Config).

(** [v['method'].upper().strip()] *)
Definition normalized (v : Candidate) : string :=
  PyStr.strip (PyStr.upper (method v)).

Definition supported (v : Candidate) : bool :=
  String.eqb (normalized v) "POST" || String.eqb (normalized v) "GET".

(** The request of a candidate, as an event and as a call. *)
Definition request_event (v : Candidate) : Event :=
  if String.eqb (normalized v) "POST"
  then EPost (URL v) (metadata v) true
  else EGet (URL v) (metadata v) true.

Definition answer (v : Candidate) (w : W) : Outcome Response * W :=
  if String.eqb (normalized v) "POST"
  then session_post env (URL v) (metadata v) true w
  else session_get env (URL v) (metadata v) true w.

(** [download_directory / v['filename']] *)
Definition local_path (v : Candidate) : string :=
  joinpath env (download_directory config) (filename v).

Definition attempt (v : Candidate) (w : W) : Attempt * W :=
  if supported v then
    match answer v w with
    | (Raises e, w1) => (NoResponse e, w1)
    | (Returns r, w1) =>
        if (status_code r =? codes_ok)%Z then
          match open_wb env (local_path v) w1 with
          | (Raises e, w2) => (OpenFailed e, w2)
          | (Returns _, w2) =>
              match copyfileobj env r (local_path v) w2 with
              | (Raises e, w3) =>
                  match fp_close env (local_path v) w3 with
                  | (Raises e', w4) => (StreamFailed e', w4)
                  | (Returns _, w4) => (StreamFailed e, w4)
                  end
              | (Returns _, w3) =>
                  match fp_close env (local_path v) w3 with
                  | (Raises e, w4) => (CloseFailed e, w4)
                  | (Returns _, w4) => (Complete, w4)
                  end
              end
          end
        else (Non200 (status_code r), w1)
    end
  else (Unsupported, w).

(** The candidate answers with a status other than 200, or with 200 and
    then a connection error or an I/O error while its file is opened,
    written or closed. *)
Definition fails (v : Candidate) (w : W) : bool :=
  match fst (attempt v w) with
  | Non200 _ => true
  | OpenFailed e | StreamFailed e | CloseFailed e =>
      caught_by [RequestsConnectionError; IOError] e
  | _ => false
  end.



(** The world after the candidates of [vs] have been tried in turn. *)
Fixpoint world_after (vs : list Candidate) (w : W) : W :=
  match vs with
  | [] => w
  | v :: rest => world_after rest (snd (attempt v w))
  end.

(** Every candidate of [vs] fails when its turn comes. *)
Fixpoint all_fail (vs : list Candidate) (w : W) : bool :=
  match vs with
  | [] => true
  | v :: rest => fails v w && all_fail rest (snd (attempt v w))
  end.

(** The state after one pass through the loop body that took the world to
    [w], left [dest] in [download_destination] and did [evs] after its two
    opening log records. *)
Definition after_body (w : W) (st : St W) (k : string) (v : Candidate)
    (dest : option string) (evs : list Event) : St W :=
  {| world := w;
     trace := trace st
              ++ ELog INFO (MNowAttempting k (method v) (metadata v))
              :: ELog DEBUG (MFullInstructions v) :: evs;
     var_v := Some v;
     var_download_destination := dest |}.

(** The extraction of the member of [v] from the archive at [dest] fails
    with an exception that line 177 catches. *)
Definition extract_fails (v : Candidate) (dest : string) (w : W) : bool :=
  match ZipFile env dest w with
  | (Raises e, _) => caught_by [BadZipFile; IOError] e
  | (Returns _, w1) =>
      match zip_extract env dest (zip_member_to_extract v)
              (zip_file_contents_directory env config v) w1 with
      | (Raises e, _) => caught_by [BadZipFile; IOError] e
      | (Returns _, _) => false
      end
  end.

(** The state in which the extraction of lines 167-181 starts, after the
    test and the log record of lines 159-163. *)
Definition extracting (k : string) (v : Candidate) (dest : string)
    (st : St W) : St W :=
  advance st (world st)
    [EIsZipfile dest; ELog INFO (MNowExtracting (zip_member_to_extract v) k)].

(** An outside world in which a download fails only in the ways the
    candidate loop provides for: a request returns a response, and
    opening, writing and closing the file raise only what line 148
    catches. *)
Record tame : Prop := {
  tame_post : forall url md w,
    exists r, fst (session_post env url md true w) = Returns r;
  tame_get : forall url md w,
    exists r, fst (session_get env url md true w) = Returns r;
  tame_open : forall p w e,
    fst (open_wb env p w) = Raises e ->
    caught_by [RequestsConnectionError; IOError] e = true;
  tame_copyfileobj : forall r p w e,
    fst (copyfileobj env r p w) = Raises e ->
    caught_by [RequestsConnectionError; IOError] e = true;
  tame_close : forall p w e,
    fst (fp_close env p w) = Raises e ->
    caught_by [RequestsConnectionError; IOError] e = true
}.

End Attempts.

(** Counting events of one kind in a trace. *)
Definition count_events (p : Event -> bool) (tr : list Event) : nat :=
  length (List.filter p tr).

(** The record of line 157. *)
Definition is_no_iteration (ev : Event) : bool :=
  match ev with
  | ELog ERROR (MNoIteration _) => true
  | _ => false
  end.

(** A download request (the login request does not stream). *)
Definition is_download_request (ev : Event) : bool :=
  match ev with
  | EPost _ _ true | EGet _ _ true => true
  | _ => false
  end.

(** The first record of each pass through the candidate loop. *)
Definition is_now_attempting (k : string) (ev : Event) : bool :=
  match ev with
  | ELog INFO (MNowAttempting k' _ _) => String.eqb k k'
  | _ => false
  end.

(** ** The example configuration ([config.py])

    [_current_timestamp] is what [datetime.now().strftime] returned when
    the module was loaded. *)
Module ExampleConfig.

(** [d[k] = v] on an ordered dict: a new key goes last, a known key keeps
    its place. *)
Fixpoint setitem {V : Type} (k : string) (v : V) (d : list (string * V))
  : list (string * V) :=
  match d with
  | [] => [(k, v)]
  | (k', v') :: rest =>
      if String.eqb k' k then (k', v) :: rest
      else (k', v') :: setitem k v rest
  end.

Section WithTimestamp.
Variable _current_timestamp : string.

Definition LOG_DIRECTORY : string := "./.script-logs".

Definition LOG_FILE_NAME : string :=
  "script_log-" ++ _current_timestamp ++ ".log".

Definition DOWNLOAD_ARCHIVE_DIRECTORY : string := "./.download_archive".

Definition BASE_URL : string := "http://httpbin.org/".

Definition LOGIN_PATH : string := "post".

Definition LOGIN_HEADERS : Metadata :=
  [("custname", "test_username"); ("custemail", "test_email")].

Definition image_types : list string := ["png"; "jpeg"; "webp"; "svg"].

(** The dictionary of lines 54-64 for one image type. *)
Definition image_action (image_type : string) : Candidate :=
  Build_Candidate
    (BASE_URL ++ "image/" ++ image_type)
    "get"
    []
    ("httpbin_example_image-downloaded_" ++ _current_timestamp ++ "."
     ++ image_type)
    false
    None
    None.

(** Lines 50-64. *)
Definition DOWNLOAD_ACTIONS : list (string * ActionValue) :=
  fold_left
    (fun d image_type => setitem image_type (Single (image_action image_type)) d)
    image_types [].

Definition config : Config :=
  Build_Config LOG_DIRECTORY LOG_FILE_NAME DOWNLOAD_ARCHIVE_DIRECTORY
    BASE_URL LOGIN_PATH LOGIN_HEADERS DOWNLOAD_ACTIONS.

End WithTimestamp.
End ExampleConfig.

(** ** Kinds of events and of configurations *)

(** What the candidate loop of lines 117-157 may do. *)
Definition loop_event (ev : Event) : bool :=
  match ev with
  | ELog INFO (MNowAttempting _ _ _)
  | ELog DEBUG (MFullInstructions _)
  | ELog ERROR (MUnsupported _ _)
  | ELog INFO (MStarted _)
  | ELog INFO (MCompleted _)
  | ELog ERROR (MUnsuccessful _)
  | ELog WARNING (MNotStarted _ _ _)
  | ELog ERROR (MNoIteration _) => true
  | EPost _ _ true | EGet _ _ true => true
  | EOpen _ | ECopyfileobj _ | EClose _ => true
  | _ => false
  end.

(** What lines 159-208 may do. *)
Definition extraction_event (ev : Event) : bool :=
  match ev with
  | ELog INFO (MNowExtracting _ _)
  | ELog INFO (MExtracted _ _)
  | ELog ERROR (MNotExtracted _ _)
  | ELog WARNING (MFinalExists _ _)
  | ELog INFO (MFinalNotYet _ _)
  | ELog INFO (MCopied _ _)
  | ELog ERROR (MNotCopied _ _)
  | ELog ERROR (MNotValidZip _) => true
  | EIsZipfile _ | EZipFile _ | EExtract _ _ _ | EExists _ | ECopy2 _ _ =>
      true
  | _ => false
  end.

(** A request, streamed or not. *)
Definition is_request (ev : Event) : bool :=
  match ev with
  | EPost _ _ _ | EGet _ _ _ => true
  | _ => false
  end.

(** A call on the file of a download. *)
Definition is_download_write (ev : Event) : bool :=
  match ev with
  | EOpen _ | ECopyfileobj _ | EClose _ => true
  | _ => false
  end.

(** A call of lines 159-206 on an archive or a final destination. *)
Definition is_archive_call (ev : Event) : bool :=
  match ev with
  | EIsZipfile _ | EZipFile _ | EExtract _ _ _ | EExists _ | ECopy2 _ _ =>
      true
  | _ => false
  end.

(** A copy to a final destination. *)
Definition is_copy (ev : Event) : bool :=
  match ev with
  | ECopy2 _ _ => true
  | _ => false
  end.

(** A warning or an error of the log. *)
Definition is_problem (ev : Event) : bool :=
  match ev with
  | ELog WARNING _ | ELog ERROR _ => true
  | _ => false
  end.

(** The warnings and errors of a trace, in order. *)
Definition problems (tr : list Event) : list Event :=
  List.filter is_problem tr.

(** The record of line 210. *)
Definition is_total_time (ev : Event) : bool :=
  match ev with
  | ELog INFO MTotalTime => true
  | _ => false
  end.

(** The download requests of a trace, in order. *)
Definition download_requests (tr : list Event) : list Event :=
  List.filter is_download_request tr.

(** A candidate with a supported method that does not ask for
    extraction. *)
Definition plain_candidate (v : Candidate) : bool :=
  supported v && negb (extract_zip v).

(** Download actions given as one dictionary each, as in [config.py]. *)
Definition singles (ds : list (string * Candidate))
  : list (string * ActionValue) :=
  map (fun kd => (fst kd, Single (snd kd))) ds.

(** The two module-level variables keep a property [I] through [m]. *)
Definition keeps {W A : Type}
    (I : option Candidate -> option string -> Prop) (m : M W A) : Prop :=
  forall st,
    I (var_v st) (var_download_destination st) ->
    I (var_v (snd (m st))) (var_download_destination (snd (m st))).

(** The exception of lines 54 and 95. *)
Definition not_a_directory (p : string) : Exc :=
  {| exc_class := NotADirectoryError; exc_msg := MMustBeDirectory p |}.

(** What reading an unbound module-level name raises. *)
Definition name_error (name : string) : Exc :=
  {| exc_class := NameError; exc_msg := MNameNotDefined name |}.

(** What [require_str] raises for [None]. *)
Definition none_type_error : Exc :=
  {| exc_class := TypeError; exc_msg := MText "expected str, not NoneType" |}.

(** The exception of line 110. *)
Definition unable : Exc :=
  {| exc_class := RequestsConnectionError; exc_msg := MUnableToConnect |}.

(** The login POST fails: it is answered with a status in 400-599, or
    it raises a [RequestException]. *)
Definition login_refused (o : Outcome Response) : bool :=
  match o with
  | Returns r => ((400 <=? status_code r) && (status_code r <? 600))%Z
  | Raises e => caught_by [RequestException] e
  end.

(** The run [m] from [st] logs the closing record of line 210 once, as
    its last event, when it returns, and not at all when it raises. *)
Definition closes_with_total_time {W : Type} (m : M W unit) (st : St W)
  : Prop :=
  (fst (m st) = Returns tt ->
   (exists evs, trace (snd (m st)) = evs ++ [ELog INFO MTotalTime])
   /\ count_events is_total_time (trace (snd (m st)))
      = S (count_events is_total_time (trace st)))
  /\ (forall e,
        fst (m st) = Raises e ->
        count_events is_total_time (trace (snd (m st)))
        = count_events is_total_time (trace st)).

Section SetUp.
Context {W : Type} (env : Env W) (config : Config).

(** [config.BASE_URL + config.LOGIN_PATH] *)
Definition login_url : string := BASE_URL config ++ LOGIN_PATH config.

(** What lines 49-110 do when nothing fails. *)
Definition setup_events : list Event :=
  [EMkdir (log_directory config);
   ELog INFO MLoggingInitiated;
   ELog INFO (MDownloadArchivePath (download_directory config));
   EMkdir (download_directory config);
   ELog INFO (MNowLoggingInto (BASE_URL config));
   EPost login_url (LOGIN_HEADERS config) false;
   ELog DEBUG MHttpHeaders].

(** The world after the two directories are made and the login request
    is sent. *)
Definition world_after_setup (w : W) : W :=
  snd (session_post env login_url (LOGIN_HEADERS config) false
         (snd (mkdir env (download_directory config)
                 (snd (mkdir env (log_directory config) w))))).

(** Both directories can be made and the login request is answered with
    a status outside 400-599. *)
Definition setup_succeeds (w : W) : bool :=
  match mkdir env (log_directory config) w with
  | (Raises _, _) => false
  | (Returns _, w1) =>
      match mkdir env (download_directory config) w1 with
      | (Raises _, _) => false
      | (Returns _, w2) =>
          match session_post env login_url (LOGIN_HEADERS config) false w2
          with
          | (Raises _, _) => false
          | (Returns r, _) =>
              negb ((400 <=? status_code r) && (status_code r <? 600))%Z
          end
      end
  end.

End SetUp.

(** ** Ways a download action can go *)
Section Outcomes.
Context {W : Type} (env : Env W) (config : Config).

(** Every candidate of [vs] is answered with a status other than 200
    when its turn comes. *)
Fixpoint all_refused (vs : list Candidate) (w : W) : bool :=
  match vs with
  | [] => true
  | v :: rest =>
      match attempt env config v w with
      | (Non200 _, w') => all_refused rest w'
      | _ => false
      end
  end.

(** The exception with which a pass through the loop body ends, if it
    ends with one: the [ValueError] of line 138, what the request raised,
    or what opening, writing or closing the file raised when line 148
    does not catch it. *)
Definition escaping (v : Candidate) (a : Attempt) : option Exc :=
  match a with
  | Unsupported =>
      Some {| exc_class := ValueError;
              exc_msg := MUnsupported v (method v) |}
  | NoResponse e => Some e
  | OpenFailed e | StreamFailed e | CloseFailed e =>
      if caught_by [RequestsConnectionError; IOError] e then None else Some e
  | Non200 _ | Complete => None
  end.

(** The exception that the extraction of lines 167-181 lets through, if
    any, with the world it leaves and the library calls made. *)
Definition extract_escapes (v : Candidate) (dest : string) (w : W)
  : option (Exc * W * list Event) :=
  match ZipFile env dest w with
  | (Raises e, w1) =>
      if caught_by [BadZipFile; IOError] e then None
      else Some (e, w1, [EZipFile dest])
  | (Returns _, w1) =>
      match zip_extract env dest (zip_member_to_extract v)
              (zip_file_contents_directory env config v) w1 with
      | (Raises e, w2) =>
          if caught_by [BadZipFile; IOError] e then None
          else Some (e, w2,
                     [EZipFile dest;
                      EExtract dest (zip_member_to_extract v)
                        (zip_file_contents_directory env config v)])
      | (Returns _, _) => None
      end
  end.

(** A download action with at least one candidate, all of them
    [plain_candidate]. *)
Definition plain_action (item : string * ActionValue) : bool :=
  match as_list (snd item) with
  | [] => false
  | vs => forallb plain_candidate vs
  end.

(** All the candidates of a configuration. *)
Definition candidates_of (items : list (string * ActionValue))
  : list Candidate :=
  flat_map (fun item => as_list (snd item)) items.

(** [download_destination] is still [d0] or is the local path of a
    candidate of [vs]. *)
Definition destination_from (d0 : option string) (vs : list Candidate)
    (d : option string) : Prop :=
  d = d0 \/ exists v, In v vs /\ d = Some (local_path env config v).

(** The warnings and errors that the candidate loop logs for the
    candidates [vs], tried in turn from the world [w], when every failure
    it meets is one the script provides for: a warning for a status other
    than 200, an error for a [ConnectionError] or [IOError] while the
    file is opened, written or closed, and the "no iteration" error when
    the candidates run out.  [None] when an attempt ends with an
    exception that leaves the loop. *)
Fixpoint loop_problems (k : string) (vs : list Candidate) (w : W)
  : option (list Event) :=
  match vs with
  | [] => Some [ELog ERROR (MNoIteration k)]
  | v :: rest =>
      match attempt env config v w with
      | (Complete, _) => Some []
      | (Non200 _, w') =>
          option_map
            (cons (ELog WARNING (MNotStarted k (method v) (metadata v))))
            (loop_problems k rest w')
      | (OpenFailed e, w') | (StreamFailed e, w') | (CloseFailed e, w') =>
          if caught_by [RequestsConnectionError; IOError] e
          then option_map (cons (ELog ERROR (MUnsuccessful k)))
                 (loop_problems k rest w')
          else None
      | (Unsupported, _) | (NoResponse _, _) => None
      end
  end.

(** The two library calls of lines 168-171. *)
Definition extract_call (v : Candidate) (dest : string) (w : W)
  : Outcome unit * W :=
  match ZipFile env dest w with
  | (Raises e, w1) => (Raises e, w1)
  | (Returns _, w1) =>
      zip_extract env dest (zip_member_to_extract v)
        (zip_file_contents_directory env config v) w1
  end.

(** The warnings and errors that lines 159-206 log for the candidate [v]
    and the downloaded file [dest], from the world [w], when every
    failure they meet is one the script provides for: a file that is not
    a valid archive, a [BadZipFile] or [IOError] of the extraction, an
    [IOError] of the copy (and the warning for a final destination that
    exists).  [None] when a library call raises what no [except] clause
    around it catches, or when the candidate names no member or no final
    destination. *)
Definition extraction_problems (k : string) (v : Candidate) (dest : string)
    (w : W) : option (list Event) :=
  if is_zipfile env dest w then
    match zip_member_to_extract v, zip_member_final_destination v with
    | Some m, Some fd =>
        let (x, w1) := extract_call v dest w in
        let extracted :=
          match x with
          | Returns _ => Some []
          | Raises e =>
              if caught_by [BadZipFile; IOError] e
              then Some [ELog ERROR (MNotExtracted (Some m) k)]
              else None
          end in
        match extracted, path_exists env fd w1 with
        | Some recs, (Returns found, w2) =>
            let note :=
              if found : bool
              then [ELog WARNING (MFinalExists fd (Some m))] else [] in
            match copy2 env
                    (joinpath env (zip_file_contents_directory env config v)
                       m) fd w2 with
            | (Returns _, _) => Some (recs ++ note)
            | (Raises e, _) =>
                if caught_by [IOError] e
                then Some (recs ++ note
                           ++ [ELog ERROR (MNotCopied (Some m) fd)])
                else None
            end
        | _, _ => None
        end
    | _, _ => None
    end
  else Some [ELog ERROR (MNotValidZip k)].

(** The same for the step after the loop as a whole, which reads [v]
    and, when [v] asks for extraction, [download_destination] ([d]: what
    the variable holds, if it is bound). *)
Definition after_loop_problems (k : string) (v : Candidate)
    (d : option string) (w : W) : option (list Event) :=
  if extract_zip v then
    match d with
    | Some dest => extraction_problems k v dest w
    | None => None
    end
  else Some [].

End Outcomes.

(** * Properties *)

(** Three steps up the class hierarchy reach every base class. *)
Lemma issubclass_depth n c d :
  issubclass_upto (3 + n) c d = issubclass c d.
Proof.
  destruct c, d, n; reflexivity.
Qed.

Lemma count_events_app p tr1 tr2 :
  count_events p (tr1 ++ tr2) = (count_events p tr1 + count_events p tr2)%nat.
Proof.
  unfold count_events. rewrite List.filter_app. apply List.length_app.
Qed.

(** ** Computations only add to the trace *)
Section Appending.
Context {W : Type}.

Lemma appends_ret {A} (a : A) : appends (W:=W) (ret a).
Proof. intros st. exists []. cbn. now rewrite app_nil_r. Qed.

Lemma appends_raise {A} c m : appends (W:=W) (A:=A) (raise c m).
Proof. intros st. exists []. cbn. now rewrite app_nil_r. Qed.

Lemma appends_emit ev : appends (W:=W) (emit ev).
Proof. intros st. exists [ev]. reflexivity. Qed.

Lemma appends_call {A} ev (op : W -> Outcome A * W) : appends (call ev op).
Proof.
  intros st. exists [ev]. unfold call. now destruct (op (world st)).
Qed.

Lemma appends_set_v c : appends (W:=W) (set_v c).
Proof. intros st. exists []. cbn. now rewrite app_nil_r. Qed.

Lemma appends_set_download_destination p :
  appends (W:=W) (set_download_destination p).
Proof. intros st. exists []. cbn. now rewrite app_nil_r. Qed.

Lemma appends_get_v : appends (W:=W) get_v.
Proof.
  intros st. exists []. unfold get_v, raise.
  destruct (var_v st); cbn; now rewrite app_nil_r.
Qed.

Lemma appends_get_download_destination :
  appends (W:=W) get_download_destination.
Proof.
  intros st. exists []. unfold get_download_destination, raise.
  destruct (var_download_destination st); cbn; now rewrite app_nil_r.
Qed.

Lemma appends_bind {A B} (m : M W A) (f : A -> M W B) :
  appends m -> (forall a, appends (f a)) -> appends (bind m f).
Proof.
  intros Hm Hf st. unfold bind. destruct (Hm st) as [evs E].
  destruct (m st) as [[a|e] st1]; cbn [snd] in *.
  - destruct (Hf a st1) as [evs' E']. exists (evs ++ evs').
    now rewrite E', E, app_assoc.
  - eauto.
Qed.

Lemma appends_try {A} (body handler : M W A) classes :
  appends body -> appends handler ->
  appends (try_except body classes handler).
Proof.
  intros Hb Hh st. unfold try_except. destruct (Hb st) as [evs E].
  destruct (body st) as [[a|e] st1]; cbn [snd] in *; [eauto|].
  destruct (caught_by classes e); cbn [snd]; [|eauto].
  destruct (Hh st1) as [evs' E']. exists (evs ++ evs').
  now rewrite E', E, app_assoc.
Qed.

Lemma appends_with {A} (body : M W A) (exit : M W unit) :
  appends body -> appends exit -> appends (with_exit body exit).
Proof.
  intros Hb Hx st. unfold with_exit. destruct (Hb st) as [evs E].
  destruct (body st) as [r st1]; cbn [snd] in *.
  destruct (Hx st1) as [evs' E'].
  destruct (exit st1) as [[[]|e] st2]; cbn [snd] in *;
    exists (evs ++ evs'); now rewrite E', E, app_assoc.
Qed.

Lemma appends_In {A} (m : M W A) ev st :
  appends m -> In ev (trace st) -> In ev (trace (snd (m st))).
Proof.
  intros Hm Hin. destruct (Hm st) as [evs E]. rewrite E.
  apply in_or_app. now left.
Qed.

Lemma appends_count {A} (m : M W A) p st :
  appends m ->
  (count_events p (trace st) <= count_events p (trace (snd (m st))))%nat.
Proof.
  intros Hm. destruct (Hm st) as [evs E]. rewrite E, count_events_app. lia.
Qed.

End Appending.

Ltac appends_step :=
  first
    [ apply appends_ret | apply appends_raise | apply appends_emit
    | apply appends_call | apply appends_set_v
    | apply appends_set_download_destination | apply appends_get_v
    | apply appends_get_download_destination
    | apply appends_bind; [|intros ?]
    | apply appends_try | apply appends_with
    | match goal with
      | |- appends (if ?b then _ else _) => destruct b
      | |- appends (match ?x with _ => _ end) => destruct x
      end ].

Section ScriptAppends.
Context {W : Type} (env : Env W) (config : Config).

Lemma appends_loop_body k v : appends (loop_body env config k v).
Proof.
  unfold loop_body, request, logger, logger_exception.
  repeat appends_step.
Qed.

Lemma appends_for_v_in k vs : appends (for_v_in env config k vs).
Proof.
  induction vs as [|v vs IH]; cbn [for_v_in].
  - apply appends_ret.
  - apply appends_bind; [apply appends_loop_body|].
    intros []; [apply appends_ret | exact IH].
Qed.

Lemma appends_candidate_loop k vs : appends (candidate_loop env config k vs).
Proof.
  unfold candidate_loop, logger.
  apply appends_bind; [apply appends_for_v_in|].
  intros []; repeat appends_step.
Qed.

Lemma appends_extract_member k v dest :
  appends (extract_member env config k v dest).
Proof.
  unfold extract_member, logger, logger_exception. repeat appends_step.
Qed.

Lemma appends_copy_member v : appends (copy_member env config v).
Proof.
  unfold copy_member, require_str, ask, logger, logger_exception.
  repeat appends_step.
Qed.

Lemma appends_extraction k : appends (extraction env config k).
Proof.
  unfold extraction, ask, logger.
  repeat first [ apply appends_extract_member | apply appends_copy_member
               | appends_step ].
Qed.

Lemma appends_download_action k val :
  appends (download_action env config k val).
Proof.
  unfold download_action.
  apply appends_bind; [apply appends_candidate_loop|].
  intros _. apply appends_extraction.
Qed.

Lemma appends_download_actions items :
  appends (download_actions env config items).
Proof.
  induction items as [|[k val] items IH]; cbn [download_actions].
  - apply appends_ret.
  - apply appends_bind; [apply appends_download_action|]. now intros _.
Qed.

End ScriptAppends.

(** ** Which events a computation adds *)
Section Emitting.
Context {W : Type} (P : Event -> Prop).

Lemma emits_nothing {A} (m : M W A) :
  (forall st, trace (snd (m st)) = trace st) -> emits P m.
Proof.
  intros H st. exists []. rewrite H, app_nil_r. split; [reflexivity|].
  constructor.
Qed.

Lemma emits_ret {A} (a : A) : emits (W:=W) P (ret a).
Proof. now apply emits_nothing. Qed.

Lemma emits_raise {A} c m : emits (W:=W) (A:=A) P (raise c m).
Proof. now apply emits_nothing. Qed.

Lemma emits_get_v : emits (W:=W) P get_v.
Proof.
  apply emits_nothing. intros st. unfold get_v, raise.
  now destruct (var_v st).
Qed.

Lemma emits_get_download_destination :
  emits (W:=W) P get_download_destination.
Proof.
  apply emits_nothing. intros st. unfold get_download_destination, raise.
  now destruct (var_download_destination st).
Qed.

Lemma emits_emit ev : P ev -> emits (W:=W) P (emit ev).
Proof. intros H st. exists [ev]. split; [reflexivity | auto]. Qed.

Lemma emits_call {A} ev (op : W -> Outcome A * W) :
  P ev -> emits P (call ev op).
Proof.
  intros H st. exists [ev]. unfold call.
  destruct (op (world st)). split; [reflexivity | auto].
Qed.

Lemma emits_bind {A B} (m : M W A) (f : A -> M W B) :
  emits P m -> (forall a, emits P (f a)) -> emits P (bind m f).
Proof.
  intros Hm Hf st. unfold bind. destruct (Hm st) as (evs & E & F).
  destruct (m st) as [[a|e] st1]; cbn [snd] in *.
  - destruct (Hf a st1) as (evs' & E' & F'). exists (evs ++ evs').
    rewrite E', E, app_assoc. split; [reflexivity|].
    apply Forall_app; auto.
  - eauto.
Qed.

Lemma emits_try {A} (body handler : M W A) classes :
  emits P body -> emits P handler ->
  emits P (try_except body classes handler).
Proof.
  intros Hb Hh st. unfold try_except. destruct (Hb st) as (evs & E & F).
  destruct (body st) as [[a|e] st1]; cbn [snd] in *; [eauto|].
  destruct (caught_by classes e); cbn [snd]; [|eauto].
  destruct (Hh st1) as (evs' & E' & F'). exists (evs ++ evs').
  rewrite E', E, app_assoc. split; [reflexivity|].
  apply Forall_app; auto.
Qed.

Lemma emits_with {A} (body : M W A) (exit : M W unit) :
  emits P body -> emits P exit -> emits P (with_exit body exit).
Proof.
  intros Hb Hx st. unfold with_exit. destruct (Hb st) as (evs & E & F).
  destruct (body st) as [r st1]; cbn [snd] in *.
  destruct (Hx st1) as (evs' & E' & F').
  destruct (exit st1) as [[[]|e] st2]; cbn [snd] in *;
    exists (evs ++ evs'); rewrite E', E, app_assoc;
    (split; [reflexivity | apply Forall_app; auto]).
Qed.

Lemma emits_count {A} (m : M W A) p st :
  (forall ev, P ev -> p ev = false) ->
  emits P m ->
  count_events p (trace (snd (m st))) = count_events p (trace st).
Proof.
  intros Hp Hm. destruct (Hm st) as (evs & E & F).
  rewrite E, count_events_app. clear E.
  assert (Z : count_events p evs = 0%nat).
  { unfold count_events. induction F as [|ev evs Hev F IH];
      [reflexivity|]. cbn [List.filter]. rewrite (Hp ev Hev). exact IH. }
  lia.
Qed.

End Emitting.

Ltac emits_step :=
  first
    [ apply emits_ret | apply emits_raise | apply emits_get_v
    | apply emits_get_download_destination
    | apply emits_emit; reflexivity | apply emits_call; reflexivity
    | apply emits_bind; [|intros ?]
    | apply emits_try | apply emits_with
    | match goal with
      | |- emits _ (if ?b then _ else _) => destruct b
      | |- emits _ (match ?x with _ => _ end) => destruct x
      end ].


(** ** One pass through the loop body *)
Section LoopBody.
Context {W : Type} (env : Env W) (config : Config).

Lemma loop_body_spec k v st :
  loop_body env config k v st =
  match attempt env config v (world st) with
  | (Unsupported, w) =>
      (Raises {| exc_class := ValueError;
                 exc_msg := MUnsupported v (method v) |},
       after_body w st k v (var_download_destination st)
         [ELog ERROR (MUnsupported v (method v))])
  | (NoResponse e, w) =>
      (Raises e,
       after_body w st k v (var_download_destination st)
         [request_event v])
  | (Non200 _, w) =>
      (Returns Next,
       after_body w st k v (var_download_destination st)
         [request_event v;
          ELog WARNING (MNotStarted k (method v) (metadata v))])
  | (OpenFailed e, w) =>
      if caught_by [RequestsConnectionError; IOError] e then
        (Returns Next,
         after_body w st k v (Some (local_path env config v))
           [request_event v; ELog INFO (MStarted k);
            EOpen (local_path env config v);
            ELog ERROR (MUnsuccessful k)])
      else
        (Raises e,
         after_body w st k v (Some (local_path env config v))
           [request_event v; ELog INFO (MStarted k);
            EOpen (local_path env config v)])
  | (StreamFailed e, w) =>
      if caught_by [RequestsConnectionError; IOError] e then
        (Returns Next,
         after_body w st k v (Some (local_path env config v))
           [request_event v; ELog INFO (MStarted k);
            EOpen (local_path env config v);
            ECopyfileobj (local_path env config v);
            EClose (local_path env config v);
            ELog ERROR (MUnsuccessful k)])
      else
        (Raises e,
         after_body w st k v (Some (local_path env config v))
           [request_event v; ELog INFO (MStarted k);
            EOpen (local_path env config v);
            ECopyfileobj (local_path env config v);
            EClose (local_path env config v)])
  | (CloseFailed e, w) =>
      if caught_by [RequestsConnectionError; IOError] e then
        (Returns Next,
         after_body w st k v (Some (local_path env config v))
           [request_event v; ELog INFO (MStarted k);
            EOpen (local_path env config v);
            ECopyfileobj (local_path env config v);
            ELog INFO (MCompleted k);
            EClose (local_path env config v);
            ELog ERROR (MUnsuccessful k)])
      else
        (Raises e,
         after_body w st k v (Some (local_path env config v))
           [request_event v; ELog INFO (MStarted k);
            EOpen (local_path env config v);
            ECopyfileobj (local_path env config v);
            ELog INFO (MCompleted k);
            EClose (local_path env config v)])
  | (Complete, w) =>
      (Returns Break,
       after_body w st k v (Some (local_path env config v))
         [request_event v; ELog INFO (MStarted k);
          EOpen (local_path env config v);
          ECopyfileobj (local_path env config v);
          ELog INFO (MCompleted k);
          EClose (local_path env config v)])
  end.
Proof.
  unfold loop_body, attempt, supported, answer, request_event, request,
    after_body, local_path, normalized.
  unfold with_exit, bind, set_v, logger, logger_exception, emit, call,
    try_except, raise, ret, set_download_destination.
  cbn [world trace var_v var_download_destination].
  repeat match goal with
  | |- context [String.eqb ?a ?b] => destruct (String.eqb a b); cbn
  | |- context [session_post ?e ?a ?b ?c ?d] =>
      destruct (session_post e a b c d) as [[?|?] ?]; cbn
  | |- context [session_get ?e ?a ?b ?c ?d] =>
      destruct (session_get e a b c d) as [[?|?] ?]; cbn
  | |- context [Z.eqb ?a ?b] => destruct (Z.eqb a b); cbn
  | |- context [open_wb ?e ?a ?b] =>
      destruct (open_wb e a b) as [[?|?] ?]; cbn
  | |- context [copyfileobj ?e ?a ?b ?c] =>
      destruct (copyfileobj e a b c) as [[?|?] ?]; cbn
  | |- context [fp_close ?e ?a ?b] =>
      destruct (fp_close e a b) as [[?|?] ?]; cbn
  | |- context [caught_by ?a ?b] => destruct (caught_by a b); cbn
  end;
  rewrite <- ?app_assoc; reflexivity.
Qed.

End LoopBody.

(** ** The candidate loop *)
Section Loop.
Context {W : Type} (env : Env W) (config : Config).

Lemma count_request_event p v tr :
  p = is_download_request ->
  count_events p (tr ++ [request_event v]) = S (count_events p tr).
Proof.
  intros ->. rewrite count_events_app. unfold request_event.
  destruct (String.eqb _ _); cbn; lia.
Qed.

Lemma for_v_in_cons k v rest (st : St W) :
  for_v_in env config k (v :: rest) st =
  match loop_body env config k v st with
  | (Returns Break, st') => (Returns ByBreak, st')
  | (Returns Next, st') => for_v_in env config k rest st'
  | (Raises e, st') => (Raises e, st')
  end.
Proof.
  cbn [for_v_in]. unfold bind.
  destruct (loop_body env config k v st) as [[[]|] ?]; reflexivity.
Qed.

Lemma for_v_in_app k pre post (st : St W) :
  for_v_in env config k (pre ++ post) st =
  match for_v_in env config k pre st with
  | (Returns Exhausted, st') => for_v_in env config k post st'
  | r => r
  end.
Proof.
  revert st. induction pre as [|v pre IH]; intros st.
  - reflexivity.
  - rewrite <- app_comm_cons, !for_v_in_cons.
    destruct (loop_body env config k v st) as [[[]|] st']; auto.
Qed.

(** A failing candidate is logged and the loop goes on. *)
Lemma loop_body_fails k v (st : St W) :
  fails env config v (world st) = true ->
  let r := loop_body env config k v st in
  fst r = Returns Next
  /\ world (snd r) = snd (attempt env config v (world st))
  /\ var_v (snd r) = Some v
  /\ count_events is_download_request (trace (snd r))
     = S (count_events is_download_request (trace st))
  /\ count_events is_no_iteration (trace (snd r))
     = count_events is_no_iteration (trace st)
  /\ count_events (is_now_attempting k) (trace (snd r))
     = S (count_events (is_now_attempting k) (trace st)).
Proof.
  unfold fails. intros H. cbn zeta. rewrite loop_body_spec.
  destruct (attempt env config v (world st)) as [[] w]; cbn [fst] in H;
    try discriminate; rewrite ?H; unfold after_body, request_event;
    cbn [fst snd world trace var_v];
    rewrite !count_events_app; cbn; rewrite String.eqb_refl;
    destruct (String.eqb (normalized v) "POST"); cbn;
    repeat split; lia.
Qed.


(** When every candidate fails the iteration runs to exhaustion, with one
    request per candidate. *)
Lemma for_v_in_all_fail k vs (st : St W) :
  all_fail env config vs (world st) = true ->
  let r := for_v_in env config k vs st in
  fst r = Returns Exhausted
  /\ world (snd r) = world_after env config vs (world st)
  /\ count_events is_download_request (trace (snd r))
     = (count_events is_download_request (trace st) + length vs)%nat
  /\ count_events is_no_iteration (trace (snd r))
     = count_events is_no_iteration (trace st)
  /\ count_events (is_now_attempting k) (trace (snd r))
     = (count_events (is_now_attempting k) (trace st) + length vs)%nat
  /\ var_v (snd r) = match last vs with
                     | Some v => Some v
                     | None => var_v st
                     end.
Proof.
  revert st. induction vs as [|v vs IH]; intros st H; cbn zeta.
  - cbn. repeat split; lia.
  - cbn [all_fail] in H. apply andb_prop in H as [Hv Hvs].
    destruct (loop_body_fails k v st Hv) as (E1 & E2 & E3 & E4 & E5 & E6).
    rewrite for_v_in_cons.
    destruct (loop_body env config k v st) as [o st'].
    cbn [fst snd] in *. subst o.
    rewrite <- E2 in Hvs. specialize (IH st' Hvs). cbn zeta in IH.
    destruct IH as (I1 & I2 & I3 & I4 & I5 & I6).
    cbn [world_after]. rewrite <- E2.
    repeat split; try assumption.
    + rewrite I3, E4. cbn [length]. lia.
    + congruence.
    + rewrite I5, E6. cbn [length]. lia.
    + rewrite I6, E3. destruct vs as [|c vs]; [reflexivity|].
      rewrite last_cons_cons.
      destruct (last (c :: vs)) eqn:L; [reflexivity|].
      apply last_None in L. discriminate.
Qed.

End Loop.

(** ** Normalising a method string *)
Section Normalising.
Import PyStr.

Lemma upper_char_space c : is_space c = true -> upper_char c = c.
Proof. destruct c as [[] [] [] [] [] [] [] []]; vm_compute; congruence. Qed.



Lemma upper_app a b : upper (a ++ b)%string = (upper a ++ upper b)%string.
Proof. induction a as [|c a IH]; simpl; [reflexivity | now rewrite IH]. Qed.

Lemma upper_space l : all_space l = true -> upper l = l.
Proof.
  induction l as [|c l IH]; simpl; [reflexivity|].
  intros H. apply andb_prop in H as [Hc Hl].
  now rewrite upper_char_space, IH.
Qed.



Lemma lstrip_space l : all_space l = true -> lstrip l = EmptyString.
Proof.
  induction l as [|c l IH]; simpl; [reflexivity|].
  intros H. apply andb_prop in H as [Hc Hl]. rewrite Hc. auto.
Qed.

Lemma rstrip_space r : all_space r = true -> rstrip r = EmptyString.
Proof.
  induction r as [|c r IH]; simpl; [reflexivity|].
  intros H. apply andb_prop in H as [Hc Hr]. now rewrite IH, Hc.
Qed.

Lemma lstrip_space_app l x :
  all_space l = true -> lstrip (l ++ x)%string = lstrip x.
Proof.
  induction l as [|c l IH]; simpl; [reflexivity|].
  intros H. apply andb_prop in H as [Hc Hl]. rewrite Hc. auto.
Qed.

Lemma rstrip_app_space x r :
  all_space r = true -> rstrip (x ++ r)%string = rstrip x.
Proof.
  intros H. induction x as [|c x IH]; simpl.
  - now apply rstrip_space.
  - now rewrite IH.
Qed.

Lemma strip_app_space x r :
  all_space r = true -> strip (x ++ r)%string = strip x.
Proof.
  intros H. unfold strip. induction x as [|c x IH]; simpl.
  - now rewrite lstrip_space.
  - destruct (is_space c); [exact IH|].
    change (String c (x ++ r)%string) with (String c x ++ r)%string.
    now apply rstrip_app_space.
Qed.







(** Surrounding whitespace does not change the normal form. *)
Lemma strip_upper_trim l m r :
  all_space l = true -> all_space r = true ->
  strip (upper (l ++ m ++ r)%string) = strip (upper m).
Proof.
  intros Hl Hr. rewrite !upper_app, (upper_space l Hl), (upper_space r Hr).
  unfold strip at 1. rewrite lstrip_space_app by assumption.
  now apply strip_app_space.
Qed.

End Normalising.

(** ** Claims about the candidate loop *)
Section CandidateLoopClaims.
Context {W : Type} (env : Env W) (config : Config).

Lemma candidate_loop_eq k vs (st : St W) :
  candidate_loop env config k vs st =
  match for_v_in env config k vs st with
  | (Returns ByBreak, st') => (Returns ByBreak, st')
  | (Returns Exhausted, st') =>
      (Returns Exhausted,
       {| world := world st';
          trace := trace st' ++ [ELog ERROR (MNoIteration k)];
          var_v := var_v st';
          var_download_destination := var_download_destination st' |})
  | (Raises e, st') => (Raises e, st')
  end.
Proof.
  unfold candidate_loop, bind, logger, emit, ret.
  destruct (for_v_in env config k vs st) as [[[]|] ?]; reflexivity.
Qed.



(** C5: a candidate with a supported method whose request returns a
    status other than 200 raises nothing: a warning is logged and the loop
    goes on with the next candidate; and a pass through the loop body ends
    by [break] only when the request returned status 200. *)
Theorem C5_only_200_succeeds k v rest (st : St W) :
  (forall r w1,
      supported v = true ->
      answer env v (world st) = (Returns r, w1) ->
      status_code r <> 200%Z ->
      let st' := after_body w1 st k v (var_download_destination st)
                   [request_event v;
                    ELog WARNING (MNotStarted k (method v) (metadata v))] in
      loop_body env config k v st = (Returns Next, st')
      /\ for_v_in env config k (v :: rest) st
         = for_v_in env config k rest st')
  /\ (forall st',
        loop_body env config k v st = (Returns Break, st') ->
        exists r w1,
          answer env v (world st) = (Returns r, w1)
          /\ status_code r = 200%Z).
Proof.
  split.
  - intros r w1 Hs Ha Hne. cbn zeta.
    assert (L : loop_body env config k v st =
                (Returns Next,
                 after_body w1 st k v (var_download_destination st)
                   [request_event v;
                    ELog WARNING (MNotStarted k (method v) (metadata v))])).
    { rewrite loop_body_spec. unfold attempt. rewrite Hs, Ha.
      unfold codes_ok. destruct (Z.eqb_spec (status_code r) 200);
        [contradiction | reflexivity]. }
    split; [exact L|]. rewrite for_v_in_cons, L. reflexivity.
  - intros st'. rewrite loop_body_spec. unfold attempt, codes_ok.
    destruct (supported v); [|discriminate].
    destruct (answer env v (world st)) as [[r|e] w1]; [|discriminate].
    destruct (Z.eqb_spec (status_code r) 200) as [E|E]; [|discriminate].
    intros _. eauto.
Qed.


End CandidateLoopClaims.

(** ** The extraction that follows the candidate loop *)
Section Extraction.
Context {W : Type} (env : Env W) (config : Config).

Lemma split_first sep s :
  nth 0 (PyStr.split sep s) EmptyString = PyStr.truncate_at_first sep s.
Proof.
  induction s as [|c s IH]; [reflexivity|].
  cbn [PyStr.split PyStr.truncate_at_first].
  destruct (Ascii.eqb c sep); [reflexivity|].
  destruct (PyStr.split sep s) as [|p ps]; cbn in *; now rewrite <- IH.
Qed.

Lemma truncate_has_no_sep sep s :
  PyStr.contains sep (PyStr.truncate_at_first sep s) = false.
Proof.
  induction s as [|c s IH]; [reflexivity|].
  cbn [PyStr.truncate_at_first].
  destruct (Ascii.eqb c sep) eqn:E; [reflexivity|].
  cbn [PyStr.contains]. now rewrite E, IH.
Qed.

Lemma truncate_is_prefix sep s :
  String.prefix (PyStr.truncate_at_first sep s) s = true.
Proof.
  induction s as [|c s IH]; [reflexivity|].
  cbn [PyStr.truncate_at_first].
  destruct (Ascii.eqb c sep); [reflexivity|].
  cbn [String.prefix]. destruct (ascii_dec c c); [exact IH | contradiction].
Qed.

Lemma truncate_stops_at_sep sep s :
  PyStr.contains sep s = true ->
  String.prefix (PyStr.truncate_at_first sep s ++ String sep EmptyString) s
  = true.
Proof.
  induction s as [|c s IH]; [discriminate|].
  cbn [PyStr.truncate_at_first PyStr.contains].
  destruct (Ascii.eqb_spec c sep) as [->|N]; cbn [orb].
  - intros _. simpl. destruct (ascii_dec sep sep); [|contradiction].
    now destruct s.
  - intros H. simpl. destruct (ascii_dec c c); [auto | contradiction].
Qed.

Lemma truncate_without_sep sep s :
  PyStr.contains sep s = false -> PyStr.truncate_at_first sep s = s.
Proof.
  induction s as [|c s IH]; [reflexivity|].
  cbn [PyStr.truncate_at_first PyStr.contains].
  destruct (Ascii.eqb c sep); [discriminate|].
  cbn [orb]. intros H. now rewrite IH.
Qed.

Lemma extract_member_spec k v dest (st : St W) :
  extract_member env config k v dest st =
  let member := zip_member_to_extract v in
  let dir := zip_file_contents_directory env config v in
  match ZipFile env dest (world st) with
  | (Raises e, w1) =>
      if caught_by [BadZipFile; IOError] e
      then (Returns tt,
            advance st w1 [EZipFile dest; ELog ERROR (MNotExtracted member k)])
      else (Raises e, advance st w1 [EZipFile dest])
  | (Returns _, w1) =>
      match zip_extract env dest member dir w1 with
      | (Raises e, w2) =>
          if caught_by [BadZipFile; IOError] e
          then (Returns tt,
                advance st w2 [EZipFile dest; EExtract dest member dir;
                               ELog ERROR (MNotExtracted member k)])
          else (Raises e,
                advance st w2 [EZipFile dest; EExtract dest member dir])
      | (Returns _, w2) =>
          (Returns tt,
           advance st w2 [EZipFile dest; EExtract dest member dir;
                          ELog INFO (MExtracted member k)])
      end
  end.
Proof.
  unfold extract_member, try_except, bind, call, logger, logger_exception,
    emit, advance.
  cbn [world trace var_v var_download_destination].
  destruct (ZipFile env dest (world st)) as [[[]|e] w1]; cbn.
  - destruct (zip_extract env dest _ _ w1) as [[[]|e] w2]; cbn;
      [|destruct (caught_by _ e)]; rewrite <- ?app_assoc; reflexivity.
  - destruct (caught_by _ e); cbn; rewrite <- ?app_assoc; reflexivity.
Qed.

Lemma copy_member_spec v fd m (st : St W) :
  zip_member_final_destination v = Some fd ->
  zip_member_to_extract v = Some m ->
  copy_member env config v st =
  let src := joinpath env (zip_file_contents_directory env config v) m in
  match path_exists env fd (world st) with
  | (Raises e, w0) => (Raises e, advance st w0 [EExists fd])
  | (Returns found, w0) =>
      let note := if found : bool
                  then ELog WARNING (MFinalExists fd (Some m))
                  else ELog INFO (MFinalNotYet fd (Some m)) in
      match copy2 env src fd w0 with
      | (Returns _, w1) =>
          (Returns tt,
           advance st w1 [EExists fd; note; ECopy2 src fd;
                          ELog INFO (MCopied (Some m) fd)])
      | (Raises e, w1) =>
          if caught_by [IOError] e
          then (Returns tt,
                advance st w1 [EExists fd; note; ECopy2 src fd;
                               ELog ERROR (MNotCopied (Some m) fd)])
          else (Raises e, advance st w1 [EExists fd; note; ECopy2 src fd])
      end
  end.
Proof.
  intros Hfd Hm.
  unfold copy_member, try_except, bind, call, logger, logger_exception,
    emit, advance, require_str, ret.
  rewrite Hfd, Hm.
  cbn [world trace var_v var_download_destination].
  destruct (path_exists env fd (world st)) as [[[]|e0] w0]; cbn;
    [| |reflexivity];
    destruct (copy2 env _ fd w0) as [[[]|e] w1]; cbn;
    try destruct (caught_by _ e); cbn; rewrite <- ?app_assoc; reflexivity.
Qed.

(** What [extraction] does once the archive test has passed. *)
Lemma extraction_of_archive k v dest (st : St W) :
  var_v st = Some v ->
  extract_zip v = true ->
  var_download_destination st = Some dest ->
  is_zipfile env dest (world st) = true ->
  extraction env config k st =
  match extract_member env config k v dest (extracting k v dest st) with
  | (Returns _, st1) => copy_member env config v st1
  | (Raises e, st1) => (Raises e, st1)
  end.
Proof.
  intros Hv Hx Hd Hz. destruct st as [w tr vv vd].
  cbn [world trace var_v var_download_destination] in *. subst vv vd.
  unfold extraction, bind, get_v, get_download_destination, ask, call,
    logger, emit, extracting, advance.
  cbn [world trace var_v var_download_destination].
  rewrite Hx. cbn [world trace var_v var_download_destination].
  rewrite Hz. cbn [world trace var_v var_download_destination].
  rewrite <- app_assoc. cbn [app].
  destruct (extract_member env config k v dest _) as [[[]|e] st1];
    reflexivity.
Qed.

(** C7: the directory into which a member is extracted is the download
    directory joined with the filename cut before its first '.' (the first
    piece of [split('.')]): the cut piece has no '.', is a prefix of the
    filename, is followed by '.' in it when the filename has one and is
    the whole filename otherwise; for "data.v2.zip" it is "data"; and this
    is the directory that the extraction call is given. *)
Theorem C7_extraction_directory :
  (forall v,
      zip_file_contents_directory env config v
      = joinpath env (download_directory config)
          (PyStr.truncate_at_first "." (filename v)))
  /\ (forall s,
        PyStr.contains "." (PyStr.truncate_at_first "." s) = false
        /\ String.prefix (PyStr.truncate_at_first "." s) s = true
        /\ (PyStr.contains "." s = true ->
            String.prefix (PyStr.truncate_at_first "." s ++ ".") s = true)
        /\ (PyStr.contains "." s = false ->
            PyStr.truncate_at_first "." s = s))
  /\ (forall v,
        filename v = "data.v2.zip" ->
        zip_file_contents_directory env config v
        = joinpath env (download_directory config) "data")
  /\ (forall k v dest (st : St W) w1,
        var_v st = Some v ->
        extract_zip v = true ->
        var_download_destination st = Some dest ->
        is_zipfile env dest (world st) = true ->
        ZipFile env dest (world st) = (Returns tt, w1) ->
        In (EExtract dest (zip_member_to_extract v)
              (joinpath env (download_directory config)
                 (PyStr.truncate_at_first "." (filename v))))
           (trace (snd (extraction env config k st)))).
Proof.
  assert (D : forall v,
             zip_file_contents_directory env config v
             = joinpath env (download_directory config)
                 (PyStr.truncate_at_first "." (filename v))).
  { intros v. unfold zip_file_contents_directory. now rewrite split_first. }
  split; [exact D|]. split.
  { intros s. repeat split.
    - apply truncate_has_no_sep.
    - apply truncate_is_prefix.
    - apply truncate_stops_at_sep.
    - apply truncate_without_sep. }
  split; [intros v E; rewrite D, E; reflexivity|].
  intros k v dest st w1 Hv Hx Hd Hz HZ.
  rewrite (extraction_of_archive k v dest st Hv Hx Hd Hz).
  rewrite extract_member_spec. cbn zeta.
  unfold extracting at 1. cbn [advance world]. rewrite HZ.
  rewrite <- D.
  set (dir := zip_file_contents_directory env config v).
  assert (P : forall w evs,
             In (EExtract dest (zip_member_to_extract v) dir)
                (trace (advance (extracting k v dest st) w
                          (EZipFile dest
                           :: EExtract dest (zip_member_to_extract v) dir
                           :: evs)))).
  { intros w evs. cbn [advance trace]. apply in_or_app. right. cbn. auto. }
  destruct (zip_extract env dest _ dir w1) as [[[]|e] w2].
  - apply appends_In; [apply appends_copy_member | apply P].
  - destruct (caught_by _ e).
    + apply appends_In; [apply appends_copy_member | apply P].
    + apply P.
Qed.

End Extraction.

(** ** Claims about extraction and copy *)
Section ExtractionClaims.
Context {W : Type} (env : Env W) (config : Config).

(** C8: when the final destination already exists ([exists()] returns
    [True]) after the member has been extracted, a warning is logged and
    the copy onto the final destination is still made: the world
    afterwards is the one [copy2] leaves, the warning comes before the
    copy in the trace, and the step raises nothing when the copy returns
    or fails with an I/O error. *)
Theorem C8_warn_then_overwrite k v dest fd m (st : St W) w2 :
  var_v st = Some v ->
  extract_zip v = true ->
  var_download_destination st = Some dest ->
  is_zipfile env dest (world st) = true ->
  zip_member_final_destination v = Some fd ->
  zip_member_to_extract v = Some m ->
  let x := extract_member env config k v dest (extracting k v dest st) in
  fst x = Returns tt ->
  path_exists env fd (world (snd x)) = (Returns true, w2) ->
  let src := joinpath env (zip_file_contents_directory env config v) m in
  let c := copy2 env src fd w2 in
  let r := extraction env config k st in
  world (snd r) = snd c
  /\ (exists tail,
        trace (snd r)
        = trace (snd x)
          ++ EExists fd :: ELog WARNING (MFinalExists fd (Some m))
             :: ECopy2 src fd :: tail)
  /\ (fst c = Returns tt ->
      fst r = Returns tt
      /\ trace (snd r)
         = trace (snd x)
           ++ [EExists fd; ELog WARNING (MFinalExists fd (Some m));
               ECopy2 src fd; ELog INFO (MCopied (Some m) fd)])
  /\ (forall e,
        fst c = Raises e -> caught_by [IOError] e = true ->
        fst r = Returns tt).
Proof.
  intros Hv Hx Hd Hz Hfd Hm x Hret Hex src c r. subst r.
  rewrite (extraction_of_archive env config k v dest st Hv Hx Hd Hz).
  fold x. destruct x as [o st1]. cbn [fst snd] in *. subst o.
  rewrite (copy_member_spec env config v fd m st1 Hfd Hm). cbn zeta.
  rewrite Hex. fold src. fold c.
  destruct c as [[[]|e] w1]; cbn [fst snd].
  - repeat split; eauto; try discriminate.
  - destruct (caught_by [IOError] e) eqn:C; cbn [fst snd advance world trace];
      repeat split; eauto; try discriminate.
    intros e' E' C'. injection E' as <-. congruence.
Qed.

(** C10 (amended): when the candidate asks for extraction, the
    downloaded file passes the archive test and the extraction of the
    member fails with an exception that line 177 catches ([BadZipFile] or
    an [IOError]), the failure is logged, nothing is raised and the step
    goes on to the existence test of the final destination; once that
    has returned, the copy to the final destination is attempted all the
    same, from wherever the member would have been extracted to. *)
Theorem C10_copy_after_failed_extraction k v dest fd m (st : St W) :
  var_v st = Some v ->
  extract_zip v = true ->
  var_download_destination st = Some dest ->
  is_zipfile env dest (world st) = true ->
  zip_member_final_destination v = Some fd ->
  zip_member_to_extract v = Some m ->
  extract_fails env config v dest (world st) = true ->
  let x := extract_member env config k v dest (extracting k v dest st) in
  let src := joinpath env (zip_file_contents_directory env config v) m in
  let r := extraction env config k st in
  fst x = Returns tt
  /\ (exists evs,
        trace (snd x) = evs ++ [ELog ERROR (MNotExtracted (Some m) k)])
  /\ (exists tail, trace (snd r) = trace (snd x) ++ EExists fd :: tail)
  /\ (forall found w2,
        path_exists env fd (world (snd x)) = (Returns found, w2) ->
        world (snd r) = snd (copy2 env src fd w2)
        /\ exists note tail,
            trace (snd r)
            = trace (snd x) ++ EExists fd :: note :: ECopy2 src fd :: tail).
Proof.
  intros Hv Hx Hd Hz Hfd Hm Hf x src r. subst r.
  rewrite (extraction_of_archive env config k v dest st Hv Hx Hd Hz).
  fold x.
  assert (X : fst x = Returns tt
              /\ exists evs,
                  trace (snd x)
                  = evs ++ [ELog ERROR (MNotExtracted (Some m) k)]).
  { subst x. rewrite extract_member_spec. cbn zeta.
    unfold extract_fails in Hf. rewrite Hm in *.
    change (world (extracting k v dest st)) with (world st).
    destruct (ZipFile env dest (world st)) as [[[]|e] w1].
    - destruct (zip_extract env dest (Some m) _ w1) as [[[]|e] w2];
        [discriminate|].
      rewrite Hf. cbn [fst snd advance trace]. split; [reflexivity|].
      eexists (_ ++ [_; _]). rewrite <- app_assoc. reflexivity.
    - rewrite Hf. cbn [fst snd advance trace]. split; [reflexivity|].
      eexists (_ ++ [_]). rewrite <- app_assoc. reflexivity. }
  destruct X as [X1 X2]. destruct x as [o st1]. cbn [fst snd] in *.
  subst o. split; [reflexivity|]. split; [exact X2|].
  rewrite (copy_member_spec env config v fd m st1 Hfd Hm). cbn zeta.
  fold src.
  destruct (path_exists env fd (world st1)) as [[found|e0] w0].
  - destruct (copy2 env src fd w0) as [[[]|e] w1] eqn:C.
    + split; [cbn [snd advance trace]; eauto|].
      intros found' w2 [= <- <-]. rewrite C.
      cbn [fst snd advance world trace]. eauto.
    + destruct (caught_by [IOError] e);
        (split; [cbn [snd advance trace]; eauto|]);
        intros found' w2 [= <- <-]; rewrite C;
        cbn [fst snd advance world trace]; eauto.
  - split; [cbn [snd advance trace]; eauto|]. intros found w2. discriminate.
Qed.

End ExtractionClaims.

(** ** Failures that are caught and what is logged of them *)
Section Problems.
Context {W : Type} (env : Env W) (config : Config).

Lemma problems_app tr1 tr2 :
  problems (tr1 ++ tr2) = problems tr1 ++ problems tr2.
Proof. apply List.filter_app. Qed.

Lemma request_is_no_problem v : is_problem (request_event v) = false.
Proof. unfold request_event. now destruct (String.eqb _ _). Qed.

Lemma problems_after_body w (st : St W) k v d evs :
  problems (trace (after_body w st k v d evs))
  = problems (trace st) ++ problems evs.
Proof. cbn [after_body trace]. now rewrite problems_app. Qed.

Lemma for_v_in_problems k vs (st : St W) recs :
  loop_problems env config k vs (world st) = Some recs ->
  exists ex,
    fst (for_v_in env config k vs st) = Returns ex
    /\ problems (trace (snd (for_v_in env config k vs st)))
       ++ match ex with
          | Exhausted => [ELog ERROR (MNoIteration k)]
          | ByBreak => []
          end
       = problems (trace st) ++ recs.
Proof.
  revert st recs. induction vs as [|v vs IH]; intros st recs H.
  - cbn in H. injection H as <-. exists Exhausted. cbn. auto.
  - cbn [loop_problems] in H. rewrite for_v_in_cons, loop_body_spec.
    assert (Step : forall w d evs recs',
               loop_problems env config k vs w = Some recs' ->
               recs = problems evs ++ recs' ->
               exists ex,
                 fst (for_v_in env config k vs (after_body w st k v d evs))
                 = Returns ex
                 /\ problems
                      (trace (snd (for_v_in env config k vs
                                     (after_body w st k v d evs))))
                    ++ match ex with
                       | Exhausted => [ELog ERROR (MNoIteration k)]
                       | ByBreak => []
                       end
                    = problems (trace st) ++ recs).
    { intros w d evs recs' L ->.
      destruct (IH (after_body w st k v d evs) recs' L) as (ex & E & P).
      exists ex. split; [exact E|].
      rewrite P, problems_after_body, <- app_assoc. reflexivity. }
    destruct (attempt env config v (world st)) as [[] w]; try discriminate;
      repeat match type of H with
             | context [caught_by ?a ?b] =>
                 destruct (caught_by a b); [|discriminate]
             end;
      try (destruct (loop_problems env config k vs w) as [recs'|] eqn:L;
           [|discriminate];
           cbn [option_map] in H; injection H as <-;
           apply (Step w _ _ recs' L);
           unfold problems; cbn [List.filter is_problem];
           rewrite request_is_no_problem; reflexivity).
    injection H as <-. exists ByBreak. cbn [fst snd].
    split; [reflexivity|].
    rewrite problems_after_body. unfold problems at 2.
    cbn [List.filter is_problem]. rewrite request_is_no_problem.
    now rewrite !app_nil_r.
Qed.

Lemma candidate_loop_problems k vs (st : St W) recs :
  loop_problems env config k vs (world st) = Some recs ->
  let l := candidate_loop env config k vs st in
  (exists ex, fst l = Returns ex)
  /\ problems (trace (snd l)) = problems (trace st) ++ recs.
Proof.
  intros H. cbn zeta.
  destruct (for_v_in_problems k vs st recs H) as (ex & E & P).
  rewrite candidate_loop_eq.
  destruct (for_v_in env config k vs st) as [o st1].
  cbn [fst snd] in *. subst o.
  destruct ex; cbn [fst snd trace]; (split; [eauto|]).
  - now rewrite app_nil_r in P.
  - rewrite problems_app. exact P.
Qed.

Lemma extraction_problems_spec k v dest (st : St W) recs :
  var_v st = Some v ->
  extract_zip v = true ->
  var_download_destination st = Some dest ->
  extraction_problems env config k v dest (world st) = Some recs ->
  let r := extraction env config k st in
  fst r = Returns tt
  /\ problems (trace (snd r)) = problems (trace st) ++ recs.
Proof.
  intros Hv Hx Hd H. cbn zeta. unfold extraction_problems in H.
  destruct (is_zipfile env dest (world st)) eqn:Hz.
  2:{ injection H as <-. destruct st as [w tr vv vd].
      cbn [world trace var_v var_download_destination] in *. subst vv vd.
      unfold extraction, bind, get_v, get_download_destination, ask, call,
        logger, emit.
      cbn [world trace var_v var_download_destination].
      rewrite Hx. cbn [world trace var_v var_download_destination].
      rewrite Hz. cbn [fst snd trace]. split; [reflexivity|].
      rewrite !problems_app. cbn. now rewrite app_nil_r. }
  destruct (zip_member_to_extract v) as [m|] eqn:Hm; [|discriminate].
  destruct (zip_member_final_destination v) as [fd|] eqn:Hfd;
    [|discriminate].
  rewrite (extraction_of_archive env config k v dest st Hv Hx Hd Hz).
  rewrite extract_member_spec. cbn zeta.
  change (world (extracting k v dest st)) with (world st).
  unfold extract_call in H. rewrite Hm in *.
  assert (P0 : problems (trace (extracting k v dest st))
               = problems (trace st)).
  { cbn [extracting advance trace]. rewrite problems_app. cbn.
    apply app_nil_r. }
  assert (C : forall st1 w1 pre,
             world st1 = w1 ->
             problems (trace st1) = problems (trace st) ++ pre ->
             match path_exists env fd w1 with
             | (Returns found, w2) =>
                 let note :=
                   if found : bool
                   then [ELog WARNING (MFinalExists fd (Some m))] else [] in
                 match copy2 env
                         (joinpath env
                            (zip_file_contents_directory env config v) m)
                         fd w2 with
                 | (Returns _, _) => Some (pre ++ note)
                 | (Raises e, _) =>
                     if caught_by [IOError] e
                     then Some (pre ++ note
                                ++ [ELog ERROR (MNotCopied (Some m) fd)])
                     else None
                 end
             | (Raises _, _) => None
             end = Some recs ->
             fst (copy_member env config v st1) = Returns tt
             /\ problems (trace (snd (copy_member env config v st1)))
                = problems (trace st) ++ recs).
  { intros st1 w1 pre <- P1 G.
    rewrite (copy_member_spec env config v fd m st1 Hfd Hm). cbn zeta.
    destruct (path_exists env fd (world st1)) as [[found|e0] w2];
      [|discriminate].
    destruct (copy2 env _ fd w2) as [[[]|e] w3].
    - injection G as <-. cbn [fst snd advance trace].
      split; [reflexivity|]. rewrite problems_app, P1, <- app_assoc.
      f_equal. destruct found; reflexivity.
    - destruct (caught_by [IOError] e); [|discriminate].
      injection G as <-. cbn [fst snd advance trace].
      split; [reflexivity|]. rewrite problems_app, P1, <- app_assoc.
      f_equal. destruct found; reflexivity. }
  destruct (ZipFile env dest (world st)) as [[[]|e] w1].
  - destruct (zip_extract env dest (Some m) _ w1) as [[[]|e] w2].
    + apply (C _ w2 []); [reflexivity | | exact H].
      cbn [advance trace]. rewrite problems_app, P0. reflexivity.
    + destruct (caught_by [BadZipFile; IOError] e); [|discriminate].
      apply (C _ w2 [ELog ERROR (MNotExtracted (Some m) k)]);
        [reflexivity | | exact H].
      cbn [advance trace]. rewrite problems_app, P0. reflexivity.
  - destruct (caught_by [BadZipFile; IOError] e); [|discriminate].
    apply (C _ w1 [ELog ERROR (MNotExtracted (Some m) k)]);
      [reflexivity | | exact H].
    cbn [advance trace]. rewrite problems_app, P0. reflexivity.
Qed.

Lemma after_loop_problems_spec k v (st : St W) recs :
  var_v st = Some v ->
  after_loop_problems env config k v (var_download_destination st) (world st)
  = Some recs ->
  let r := extraction env config k st in
  fst r = Returns tt
  /\ problems (trace (snd r)) = problems (trace st) ++ recs.
Proof.
  intros Hv H. cbn zeta. unfold after_loop_problems in H.
  destruct (extract_zip v) eqn:Hx.
  - destruct (var_download_destination st) as [dest|] eqn:Hd;
      [|discriminate].
    now apply (extraction_problems_spec k v dest).
  - injection H as <-. unfold extraction, bind, get_v, ret.
    rewrite Hv, Hx. cbn [fst snd]. now rewrite app_nil_r.
Qed.

(** C3 (amended): a failure that the script catches does not end the
    run.  When the attempts of a download action meet only statuses other
    than 200 and [ConnectionError]s or [IOError]s while a file is opened,
    written or closed ([loop_problems] is defined), and the step after
    the loop, reading [v] (and [download_destination] when [v] asks for
    extraction), meets only a file that is no valid archive, a
    [BadZipFile] or [IOError] of the extraction and an [IOError] of the
    copy ([after_loop_problems] is defined), the download action raises
    nothing, its warnings and errors are exactly the records of these
    failures, in order, and the run goes on with the next download
    action.  An unsupported method is fatal to the run: after candidates
    that fail, a candidate whose ASCII method is neither "GET" nor "POST"
    once normalised makes the run of download actions end with the
    [ValueError] of line 138, logged as an error; no request is sent for
    it, and the candidates and the download actions after it play no
    part. *)
Theorem C3_caught_failures_do_not_end_the_run :
  (forall k val rest (st : St W) recs1 v recs2,
      loop_problems env config k (as_list val) (world st) = Some recs1 ->
      let l := candidate_loop env config k (as_list val) st in
      var_v (snd l) = Some v ->
      after_loop_problems env config k v (var_download_destination (snd l))
        (world (snd l)) = Some recs2 ->
      let r := download_action env config k val st in
      fst r = Returns tt
      /\ problems (trace (snd r)) = problems (trace st) ++ recs1 ++ recs2
      /\ download_actions env config ((k, val) :: rest) st
         = download_actions env config rest (snd r))
  /\ (forall k pre v post rest (st : St W),
        PyStr.is_ascii (method v) = true ->
        supported v = false ->
        all_fail env config pre (world st) = true ->
        let r := download_actions env config
                   ((k, Multiple (pre ++ v :: post)) :: rest) st in
        fst r = Raises {| exc_class := ValueError;
                          exc_msg := MUnsupported v (method v) |}
        /\ (exists evs,
              trace (snd r)
              = evs ++ [ELog ERROR (MUnsupported v (method v))])
        /\ r = download_actions env config [(k, Multiple (pre ++ [v]))] st
        /\ count_events is_download_request (trace (snd r))
           = (count_events is_download_request (trace st) + length pre)%nat).
Proof.
  split.
  - intros k val rest st recs1 v recs2 H1 l Hv H2 r. subst l r.
    destruct (candidate_loop_problems k (as_list val) st recs1 H1)
      as ([ex L1] & L2).
    cbn [download_actions]. unfold bind at 1. unfold download_action, bind.
    destruct (candidate_loop env config k (as_list val) st) as [o st1].
    cbn [fst snd] in *. subst o.
    destruct (after_loop_problems_spec k v st1 recs2 Hv H2) as [X1 X2].
    destruct (extraction env config k st1) as [o st2].
    cbn [fst snd] in *. subst o.
    split; [reflexivity|]. split; [|reflexivity].
    now rewrite X2, L2, <- app_assoc.
  - intros k pre v post rest st _ Hs Hpre. cbn zeta.
    cbn [download_actions]. unfold bind at 1 3.
    unfold download_action, bind. cbn [as_list].
    rewrite !candidate_loop_eq, !for_v_in_app.
    destruct (for_v_in_all_fail env config k pre st Hpre)
      as (E1 & _ & E3 & _).
    destruct (for_v_in env config k pre st) as [o st1].
    cbn [fst snd] in *. subst o.
    rewrite !for_v_in_cons, loop_body_spec. unfold attempt. rewrite Hs.
    cbn [fst snd after_body trace].
    split; [reflexivity|]. split.
    { eexists (_ ++ [_; _]). rewrite <- app_assoc. reflexivity. }
    split; [reflexivity|].
    rewrite count_events_app, E3. cbn. lia.
Qed.

End Problems.

(** ** Downloads in a tame world *)
Section Tame.
Context {W : Type} (env : Env W) (config : Config).
Hypothesis env_tame : tame env.

Lemma attempt_tame v (w : W) :
  supported v = true ->
  match fst (attempt env config v w) with
  | Unsupported | NoResponse _ => False
  | OpenFailed e | StreamFailed e | CloseFailed e =>
      caught_by [RequestsConnectionError; IOError] e = true
  | Non200 _ | Complete => True
  end.
Proof.
  intros Hs. unfold attempt. rewrite Hs.
  assert (A : exists r, fst (answer env v w) = Returns r).
  { unfold answer. destruct (String.eqb _ _);
      [apply (tame_post env env_tame) | apply (tame_get env env_tame)]. }
  destruct A as [r A]. destruct (answer env v w) as [o w1].
  cbn [fst] in A. subst o.
  destruct (status_code r =? codes_ok)%Z; [|exact I].
  pose proof (tame_open env env_tame (local_path env config v) w1) as O.
  destruct (open_wb env (local_path env config v) w1) as [[[]|e] w2];
    [|cbn; now apply O].
  pose proof (tame_copyfileobj env env_tame r (local_path env config v) w2)
    as C.
  destruct (copyfileobj env r (local_path env config v) w2) as [[[]|e] w3];
    pose proof (tame_close env env_tame (local_path env config v) w3) as X;
    destruct (fp_close env (local_path env config v) w3) as [[[]|e'] w4];
    cbn; auto.
Qed.

Lemma loop_body_tame k v (st : St W) :
  supported v = true ->
  let r := loop_body env config k v st in
  (exists ctl, fst r = Returns ctl) /\ var_v (snd r) = Some v.
Proof.
  intros Hs. cbn zeta. pose proof (attempt_tame v (world st) Hs) as T.
  rewrite loop_body_spec.
  destruct (attempt env config v (world st)) as [[] w]; cbn [fst] in *;
    try contradiction; rewrite ?T; cbn [fst snd]; eauto.
Qed.

Lemma for_v_in_tame k vs (st : St W) :
  forallb supported vs = true ->
  let r := for_v_in env config k vs st in
  (exists e, fst r = Returns e)
  /\ (vs <> [] -> exists v, In v vs /\ var_v (snd r) = Some v).
Proof.
  revert st. induction vs as [|v vs IH]; intros st H; cbn zeta.
  - cbn. split; [eauto | congruence].
  - cbn [forallb] in H. apply andb_prop in H as [Hs Hvs].
    destruct (loop_body_tame k v st Hs) as ([ctl B1] & B2).
    rewrite for_v_in_cons.
    destruct (loop_body env config k v st) as [o st1].
    cbn [fst snd] in *. subst o.
    destruct ctl.
    + cbn [fst snd]. split; [eauto|]. intros _. exists v. cbn. auto.
    + specialize (IH st1 Hvs). cbn zeta in IH. destruct IH as (I1 & I2).
      split; [exact I1|]. intros _. destruct vs as [|v2 vs].
      * exists v. cbn. auto.
      * destruct I2 as (v' & ? & ?); [discriminate|].
        exists v'. cbn in *. auto.
Qed.

End Tame.

(** ** Runs in the concrete world *)

Ltac run :=
  vm_compute;
  repeat match goal with |- _ /\ _ => split end;
  lazymatch goal with
  | |- _ = _ => reflexivity
  | |- _ \/ _ => repeat first [left; reflexivity | right]
  | |- _ -> False => first [discriminate | intuition discriminate]
  end.

Lemma calm_is_tame : tame Sim.calm.
Proof.
  split; cbn -[caught_by].
  - intros url md w. unfold Sim.calm_send.
    destruct (Sim.route url (Sim.routes w)); cbn; eauto.
  - intros url md w. unfold Sim.calm_send.
    destruct (Sim.route url (Sim.routes w)); cbn; eauto.
  - intros p w e. unfold Sim.sim_open_wb.
    destruct (Sim.listed p (Sim.read_only w)); cbn; [|discriminate].
    intros [= <-]. reflexivity.
  - intros r p w e. unfold Sim.write_body.
    destruct (String.length (raw r) <=? Sim.quota w)%nat; cbn;
      [discriminate|].
    intros [= <-]. reflexivity.
  - intros p w e. unfold Sim.sim_close.
    destruct (Sim.listed p (Sim.unflushable w)); cbn; [|discriminate].
    intros [= <-]. reflexivity.
Qed.

(** Scenario 1 of the specification: one candidate, GET, 200, no
    extraction. *)
Example scenario_png :
  let r := main Sim.env (Sim.cfg [("png", Single Sim.img_a)])
             (initial Sim.world0) in
  fst r = Returns tt
  /\ Sim.files (world (snd r)) !! "arch/a.png" = Some "image-bytes"
  /\ count_events (fun ev => match ev with EIsZipfile _ => true
                                         | _ => false end)
       (trace (snd r)) = 0%nat.
Proof. vm_compute. auto. Qed.

(** Scenario 2: the first candidate answers 500, the second 200 with an
    archive; the member is extracted and copied. *)
Example scenario_data :
  let r := main Sim.env (Sim.cfg [("data", Multiple [Sim.img_down; Sim.zip_ok])])
             (initial Sim.world0) in
  fst r = Returns tt
  /\ Sim.files (world (snd r)) !! "arch/d/m.csv" = Some "1,2"
  /\ Sim.files (world (snd r)) !! "out/m.csv" = Some "1,2".
Proof. vm_compute. auto. Qed.

(** Scenario 4: the login answers 403 and the run ends at once. *)
Example scenario_login_refused :
  let w := {| Sim.files := ∅;
              Sim.routes := [("http://h/login",
                              {| status_code := 403; raw := "" |})];
              Sim.read_only := []; Sim.quota := 64;
              Sim.unflushable := []; Sim.dropped := [] |} in
  let r := main Sim.env (Sim.cfg [("png", Single Sim.img_a)]) (initial w) in
  fst r = Raises {| exc_class := RequestsConnectionError;
                    exc_msg := MUnableToConnect |}
  /\ count_events is_download_request (trace (snd r)) = 0%nat.
Proof. vm_compute. auto. Qed.



(** C2: the code is not guarded.  The only candidate of the first download
    action answers 404 and asks for extraction: line 159 reads
    [download_destination], which no loop has bound, and the run ends with
    [NameError].  And when an earlier action has bound it, a later action
    all of whose candidates fail extracts from the earlier action's file. *)
Theorem C2_extraction_unguarded :
  (let r := main Sim.env (Sim.cfg [("t", Single Sim.zip_gone)])
              (initial Sim.world0) in
   fst r = Raises {| exc_class := NameError;
                     exc_msg := MNameNotDefined "download_destination" |}
   /\ count_events is_no_iteration (trace (snd r)) = 1%nat)
  /\ (let r := main Sim.env
                 (Sim.cfg [("a", Single Sim.zip_ok);
                           ("b", Single Sim.zip_gone)])
                 (initial Sim.world0) in
      fst r = Returns tt
      /\ In (ELog ERROR (MNoIteration "b")) (trace (snd r))
      /\ Sim.files (world (snd r)) !! "arch/e.zip" = None
      /\ In (EExtract "arch/d.v2.zip" (Some "m.csv") "arch/e")
            (trace (snd r))
      /\ Sim.files (world (snd r)) !! "out/e.csv" = Some "1,2").
Proof. run. Qed.

(** C3 fails as stated: a candidate with an unsupported method ends the
    whole run with [ValueError]; the download action after it is never
    attempted and the closing record is not logged. *)
Lemma C3_counterexample :
  let r := main Sim.env
             (Sim.cfg [("a", Multiple [Sim.img_put; Sim.img_b]);
                       ("b", Single Sim.img_b)])
             (initial Sim.world0) in
  fst r = Raises {| exc_class := ValueError;
                    exc_msg := MUnsupported Sim.img_put "put" |}
  /\ count_events (is_now_attempting "b") (trace (snd r)) = 0%nat
  /\ count_events is_download_request (trace (snd r)) = 0%nat
  /\ ~ In (ELog INFO MTotalTime) (trace (snd r)).
Proof. run. Qed.

Lemma C3_witness :
  let val := Multiple [Sim.zip_gone; Sim.img_ro; Sim.zip_bad] in
  let next := [("b", Single Sim.img_b)] in
  let r := download_action Sim.env (Sim.cfg []) "a" val
             (initial Sim.world_ro) in
  (fst r = Returns tt
   /\ problems (trace (snd r))
      = [ELog WARNING (MNotStarted "a" "get" []);
         ELog ERROR (MUnsuccessful "a");
         ELog ERROR (MNotExtracted (Some "m.csv") "a");
         ELog ERROR (MNotCopied (Some "m.csv") "out/m.csv")]
   /\ download_actions Sim.env (Sim.cfg []) (("a", val) :: next)
        (initial Sim.world_ro)
      = download_actions Sim.env (Sim.cfg []) next (snd r))
  /\ fst (download_actions Sim.env (Sim.cfg [])
            [("a", Multiple ([Sim.img_gone] ++ Sim.img_put :: [Sim.img_b]));
             ("b", Single Sim.img_b)]
            (initial Sim.world0))
     = Raises {| exc_class := ValueError;
                 exc_msg := MUnsupported Sim.img_put "put" |}.
Proof.
  destruct (C3_caught_failures_do_not_end_the_run Sim.env (Sim.cfg []))
    as [H1 H2].
  split.
  - destruct (H1 "a" (Multiple [Sim.zip_gone; Sim.img_ro; Sim.zip_bad])
                [("b", Single Sim.img_b)] (initial Sim.world_ro)
                [ELog WARNING (MNotStarted "a" "get" []);
                 ELog ERROR (MUnsuccessful "a")]
                Sim.zip_bad
                [ELog ERROR (MNotExtracted (Some "m.csv") "a");
                 ELog ERROR (MNotCopied (Some "m.csv") "out/m.csv")])
      as (A & B & C);
      [vm_compute; reflexivity | vm_compute; reflexivity
      | vm_compute; reflexivity |].
    split; [exact A|]. split; [exact B | exact C].
  - destruct (H2 "a" [Sim.img_gone] Sim.img_put [Sim.img_b]
                [("b", Single Sim.img_b)] (initial Sim.world0))
      as [E _];
      [vm_compute; reflexivity | vm_compute; reflexivity
      | vm_compute; reflexivity |].
    exact E.
Defined.



Lemma C5_witness :
  for_v_in Sim.env (Sim.cfg []) "img" [Sim.img_gone; Sim.img_b]
    (initial Sim.world0)
  = for_v_in Sim.env (Sim.cfg []) "img" [Sim.img_b]
      (after_body Sim.world0 (initial Sim.world0) "img" Sim.img_gone None
         [request_event Sim.img_gone;
          ELog WARNING (MNotStarted "img" "post" [])]).
Proof.
  destruct (C5_only_200_succeeds Sim.env (Sim.cfg []) "img" Sim.img_gone
              [Sim.img_b] (initial Sim.world0)) as [H _].
  destruct (H {| status_code := 404; raw := "not found" |} Sim.world0)
    as [_ H2];
    [vm_compute; reflexivity | vm_compute; reflexivity
    | vm_compute; discriminate |].
  exact H2.
Defined.


Lemma C7_witness :
  let st := snd (candidate_loop Sim.env (Sim.cfg []) "a" [Sim.zip_ok]
                   (initial Sim.world0)) in
  In (EExtract "arch/d.v2.zip" (Some "m.csv") "arch/d")
     (trace (snd (extraction Sim.env (Sim.cfg []) "a" st))).
Proof.
  intros st.
  destruct (C7_extraction_directory Sim.env (Sim.cfg [])) as (_ & _ & _ & H).
  apply (H "a" Sim.zip_ok "arch/d.v2.zip" st (world st));
    vm_compute; reflexivity.
Defined.

Lemma C8_witness :
  let st := snd (candidate_loop Sim.env (Sim.cfg []) "a" [Sim.zip_ok]
                   (initial Sim.world_old)) in
  let r := extraction Sim.env (Sim.cfg []) "a" st in
  Sim.files (world st) !! "out/m.csv" = Some "old"
  /\ fst r = Returns tt
  /\ Sim.files (world (snd r)) !! "out/m.csv" = Some "1,2"
  /\ In (ELog WARNING (MFinalExists "out/m.csv" (Some "m.csv")))
        (trace (snd r)).
Proof.
  intros st.
  edestruct (C8_warn_then_overwrite Sim.env (Sim.cfg []) "a" Sim.zip_ok
               "arch/d.v2.zip" "out/m.csv" "m.csv" st)
    as (H1 & _ & H3 & _);
    [vm_compute; reflexivity | vm_compute; reflexivity
    | vm_compute; reflexivity | vm_compute; reflexivity
    | vm_compute; reflexivity | vm_compute; reflexivity
    | vm_compute; reflexivity | vm_compute; reflexivity |].
  destruct H3 as [H3 H4]; [vm_compute; reflexivity|].
  cbv zeta. split; [vm_compute; reflexivity|]. split; [exact H3|].
  split.
  - rewrite H1. vm_compute. reflexivity.
  - rewrite H4. apply in_or_app. right. cbn. auto.
Defined.

(** C10 fails as stated: the archive is valid but does not hold the
    member; the extraction fails with [KeyError], which line 177 does not
    catch, and the copy is not attempted.  And after an extraction
    failure that is caught and logged, the existence test of a final
    destination with too long a name raises, and the copy is not
    attempted either. *)
Lemma C10_counterexample :
  (let st := snd (candidate_loop Sim.env (Sim.cfg []) "a"
                    [Sim.zip_other_member] (initial Sim.world0)) in
   let r := extraction Sim.env (Sim.cfg []) "a" st in
   is_zipfile Sim.env "arch/d.zip" (world st) = true
   /\ fst (ZipFile Sim.env "arch/d.zip" (world st)) = Returns tt
   /\ fst r = Raises {| exc_class := KeyError;
                        exc_msg :=
                          MText "There is no item named so in the archive" |}
   /\ count_events is_copy (trace (snd r)) = 0%nat)
  /\ (let st := snd (candidate_loop Sim.env (Sim.cfg []) "a"
                       [Sim.zip_long_destination] (initial Sim.world0)) in
      let r := extraction Sim.env (Sim.cfg []) "a" st in
      is_zipfile Sim.env "arch/d.zip" (world st) = true
      /\ extract_fails Sim.env (Sim.cfg []) Sim.zip_long_destination
           "arch/d.zip" (world st) = true
      /\ problems (trace (snd r))
         = [ELog ERROR (MNotExtracted (Some "m.csv") "a")]
      /\ fst r = Raises {| exc_class := OSError;
                           exc_msg := MText "File name too long" |}
      /\ count_events is_copy (trace (snd r)) = 0%nat).
Proof. run. Qed.

Lemma C10_witness :
  let st := snd (candidate_loop Sim.env (Sim.cfg []) "a" [Sim.zip_bad]
                   (initial Sim.world_stale)) in
  let r := extraction Sim.env (Sim.cfg []) "a" st in
  In (ECopy2 "arch/d/m.csv" "out/m.csv") (trace (snd r))
  /\ Sim.files (world (snd r)) !! "out/m.csv" = Some "stale".
Proof.
  intros st.
  destruct (C10_copy_after_failed_extraction Sim.env (Sim.cfg []) "a"
              Sim.zip_bad "arch/d.zip" "out/m.csv" "m.csv" st)
    as (_ & _ & _ & H);
    [vm_compute; reflexivity | vm_compute; reflexivity
    | vm_compute; reflexivity | vm_compute; reflexivity
    | vm_compute; reflexivity | vm_compute; reflexivity
    | vm_compute; reflexivity |].
  edestruct (H false) as (H3 & note & tail & H4);
    [vm_compute; reflexivity|].
  cbv zeta. split.
  - rewrite H4. apply in_or_app. right. cbn. auto.
  - rewrite H3. vm_compute. reflexivity.
Defined.

(** A candidate that asks for extraction without naming a member:
    [ZipFile.extract] is given [None] and raises [KeyError], which is not
    caught; the final destination is not looked up. *)
Example scenario_no_member :
  let r := download_action Sim.env (Sim.cfg []) "a" (Single Sim.zip_no_member)
             (initial Sim.world0) in
  fst r = Raises {| exc_class := KeyError;
                    exc_msg :=
                      MText "There is no item named so in the archive" |}
  /\ In (EExtract "arch/d.zip" None "arch/d") (trace (snd r))
  /\ count_events is_archive_call (trace (snd r)) = 3%nat.
Proof. run. Qed.

(** Running the script twice: the second run finds the final destination,
    warns and copies again. *)
Example scenario_twice :
  let c := Sim.cfg [("a", Single Sim.zip_ok)] in
  let first := main Sim.env c (initial Sim.world0) in
  let second := main Sim.env c (initial (world (snd first))) in
  fst first = Returns tt
  /\ fst second = Returns tt
  /\ In (ELog WARNING (MFinalExists "out/m.csv" (Some "m.csv")))
        (trace (snd second))
  /\ In (ECopy2 "arch/d/m.csv" "out/m.csv") (trace (snd second)).
Proof. run. Qed.

(** * Further properties of the script *)

(** ** What each part of the script does to the outside *)
Section Kinds.
Context {W : Type} (env : Env W) (config : Config).

Lemma emits_weaken {A} (P Q : Event -> Prop) (m : M W A) :
  (forall ev, P ev -> Q ev) -> emits P m -> emits Q m.
Proof.
  intros H Hm st. destruct (Hm st) as (evs & E & F). exists evs.
  split; [exact E|]. eapply Forall_impl; eauto.
Qed.

Lemma loop_body_kind k v :
  emits (fun ev => loop_event ev = true) (loop_body env config k v).
Proof.
  unfold loop_body, request, logger, logger_exception.
  repeat first [ apply emits_nothing; reflexivity | emits_step ].
Qed.

Lemma for_v_in_kind k vs :
  emits (fun ev => loop_event ev = true) (for_v_in env config k vs).
Proof.
  induction vs as [|v vs IH]; cbn [for_v_in].
  - apply emits_ret.
  - apply emits_bind; [apply loop_body_kind|].
    intros []; [apply emits_ret | exact IH].
Qed.

Lemma candidate_loop_kind k vs :
  emits (fun ev => loop_event ev = true) (candidate_loop env config k vs).
Proof.
  unfold candidate_loop, logger.
  apply emits_bind; [apply for_v_in_kind|].
  intros []; repeat emits_step.
Qed.

Lemma extraction_kind k :
  emits (fun ev => extraction_event ev = true) (extraction env config k).
Proof.
  unfold extraction, extract_member, copy_member, require_str, ask, logger,
    logger_exception.
  repeat emits_step.
Qed.

Lemma download_action_kind k val :
  emits (fun ev => loop_event ev || extraction_event ev = true)
    (download_action env config k val).
Proof.
  unfold download_action. apply emits_bind.
  - eapply emits_weaken; [|apply candidate_loop_kind].
    cbn beta. intros ev ->. reflexivity.
  - intros _. eapply emits_weaken; [|apply extraction_kind].
    cbn beta. intros ev ->. apply orb_true_r.
Qed.

Lemma download_actions_kind items :
  emits (fun ev => loop_event ev || extraction_event ev = true)
    (download_actions env config items).
Proof.
  induction items as [|[k val] items IH]; cbn [download_actions].
  - apply emits_ret.
  - apply emits_bind; [apply download_action_kind | now intros _].
Qed.

Lemma kinds_are_disjoint ev :
  loop_event ev = true -> extraction_event ev = false.
Proof.
  destruct ev as [lvl m| |url data stream|url params stream| | | | | | | |];
    try destruct lvl; try destruct m; try destruct stream; cbn; congruence.
Qed.

(** X1: the candidate loop and the step after it keep to their own
    calls.  Every event of the candidate loop is a record of lines
    118-157, a streamed request, or the opening, writing or closing of a
    download; every event of lines 159-208 is one of their own records or
    a call on an archive or on a final destination.  So the loop never
    tests, opens or extracts an archive and never looks up or copies to a
    final destination, and the step after it never sends a request,
    streamed or not, and never opens, writes or closes a download. *)
Theorem phases_keep_apart k vs (st : St W) :
  let l := candidate_loop env config k vs st in
  let x := extraction env config k st in
  (exists evs,
     trace (snd l) = trace st ++ evs
     /\ Forall (fun ev => loop_event ev = true) evs)
  /\ (exists evs,
        trace (snd x) = trace st ++ evs
        /\ Forall (fun ev => extraction_event ev = true) evs)
  /\ count_events is_archive_call (trace (snd l))
     = count_events is_archive_call (trace st)
  /\ count_events is_request (trace (snd x))
     = count_events is_request (trace st)
  /\ count_events is_download_write (trace (snd x))
     = count_events is_download_write (trace st).
Proof.
  cbn zeta.
  split; [apply candidate_loop_kind|].
  split; [apply extraction_kind|].
  split; [|split].
  - apply (emits_count (fun ev => loop_event ev = true));
      [|apply candidate_loop_kind].
    intros ev.
    destruct ev as [lvl m| |url data stream|url params stream| | | | | | | |];
      cbn; congruence.
  - apply (emits_count (fun ev => extraction_event ev = true));
      [|apply extraction_kind].
    intros ev.
    destruct ev as [lvl m| |url data stream|url params stream| | | | | | | |];
      cbn; congruence.
  - apply (emits_count (fun ev => extraction_event ev = true));
      [|apply extraction_kind].
    intros ev.
    destruct ev as [lvl m| |url data stream|url params stream| | | | | | | |];
      cbn; congruence.
Qed.

End Kinds.

(** ** Setting up: directories and login *)
Section SetUpFacts.
Context {W : Type} (env : Env W) (config : Config).

Lemma create_log_directory_spec (st : St W) :
  create_log_directory env config st =
  match mkdir env (log_directory config) (world st) with
  | (Returns _, w1) =>
      (Returns tt, advance st w1 [EMkdir (log_directory config)])
  | (Raises e, w1) =>
      if caught_by [FileExistsError] e
      then (Raises (not_a_directory (log_directory config)),
            advance st w1 [EMkdir (log_directory config)])
      else (Raises e, advance st w1 [EMkdir (log_directory config)])
  end.
Proof.
  unfold create_log_directory, try_except, call, raise, advance.
  destruct (mkdir env (log_directory config) (world st)) as [[[]|e] w1];
    [reflexivity|].
  destruct (caught_by _ e); reflexivity.
Qed.

Lemma create_download_directory_spec (st : St W) :
  create_download_directory env config st =
  let dd := download_directory config in
  match mkdir env dd (world st) with
  | (Returns _, w1) =>
      (Returns tt,
       advance st w1 [ELog INFO (MDownloadArchivePath dd); EMkdir dd])
  | (Raises e, w1) =>
      if caught_by [FileExistsError] e
      then (Raises (not_a_directory dd),
            advance st w1 [ELog INFO (MDownloadArchivePath dd); EMkdir dd;
                           ELog ERROR (MMustBeDirectory dd)])
      else (Raises e,
            advance st w1 [ELog INFO (MDownloadArchivePath dd); EMkdir dd])
  end.
Proof.
  unfold create_download_directory, try_except, bind, call, raise, logger,
    logger_exception, emit, advance.
  cbn [world trace var_v var_download_destination].
  destruct (mkdir env (download_directory config) (world st))
    as [[[]|e] w1]; cbn; [|destruct (caught_by _ e); cbn];
    rewrite <- ?app_assoc; reflexivity.
Qed.

Lemma login_spec (st : St W) :
  login env config st =
  let url := login_url config in
  let hello := ELog INFO (MNowLoggingInto (BASE_URL config)) in
  let post := EPost url (LOGIN_HEADERS config) false in
  match session_post env url (LOGIN_HEADERS config) false (world st) with
  | (Returns r, w1) =>
      if ((400 <=? status_code r) && (status_code r <? 600))%Z
      then (Raises unable,
            advance st w1 [hello; post; ELog DEBUG MHttpHeaders;
                           ELog ERROR MUnableToConnect])
      else (Returns tt, advance st w1 [hello; post; ELog DEBUG MHttpHeaders])
  | (Raises e, w1) =>
      if caught_by [RequestException] e
      then (Raises unable,
            advance st w1 [hello; post; ELog ERROR MUnableToConnect])
      else (Raises e, advance st w1 [hello; post])
  end.
Proof.
  unfold login, login_url, try_except, bind, call, raise, logger,
    logger_exception, emit, advance, raise_for_status, ret.
  cbn [world trace var_v var_download_destination].
  destruct (session_post env _ (LOGIN_HEADERS config) false (world st))
    as [[r|e] w1]; cbn.
  - destruct ((400 <=? status_code r) && (status_code r <? 600))%Z; cbn;
      rewrite <- ?app_assoc; reflexivity.
  - destruct (caught_by _ e); cbn; rewrite <- ?app_assoc; reflexivity.
Qed.

(** X2: the login returns exactly when the POST is answered with a
    status outside 400-599.  When it raises, either the exception is the
    [ConnectionError] of line 110, logged as an error just before, or it
    is what the POST raised and is no [RequestException]; so the only
    exception of the requests family that leaves the login is that
    [ConnectionError]. *)
Theorem login_outcome (st : St W) :
  let p := session_post env (login_url config) (LOGIN_HEADERS config) false
             (world st) in
  let r := login env config st in
  (fst r = Returns tt <->
   exists a, fst p = Returns a
             /\ ((status_code a < 400)%Z \/ (600 <= status_code a)%Z))
  /\ (forall e,
        fst r = Raises e ->
        (e = unable
         /\ exists evs, trace (snd r) = evs ++ [ELog ERROR MUnableToConnect])
        \/ (fst p = Raises e /\ caught_by [RequestException] e = false))
  /\ (forall e,
        fst r = Raises e ->
        caught_by [RequestException] e = true -> e = unable)
  /\ world (snd r) = snd p.
Proof.
  cbn zeta. rewrite login_spec. cbn zeta.
  destruct (session_post env (login_url config) (LOGIN_HEADERS config) false
              (world st)) as [[a|e] w1]; cbn [fst snd].
  - destruct ((400 <=? status_code a) && (status_code a <? 600))%Z eqn:B;
      cbn [fst snd].
    + apply andb_true_iff in B as [B1 B2].
      apply Z.leb_le in B1. apply Z.ltb_lt in B2.
      split.
      { split; [discriminate|]. intros (a' & E & H).
        injection E as <-. lia. }
      split.
      { intros e E. injection E as <-. left. split; [reflexivity|].
        cbn [advance trace]. eexists (_ ++ [_; _; _]).
        rewrite <- app_assoc. reflexivity. }
      split; [|reflexivity]. intros e E _. now injection E as <-.
    + apply andb_false_iff in B.
      rewrite Z.leb_gt, Z.ltb_ge in B.
      split.
      { split; [|reflexivity]. intros _. exists a.
        split; [reflexivity | lia]. }
      split; [discriminate|]. split; [discriminate | reflexivity].
  - destruct (caught_by [RequestException] e) eqn:C; cbn [fst snd].
    + split.
      { split; [discriminate|]. intros (a & E & _). discriminate. }
      split.
      { intros e' E. injection E as <-. left. split; [reflexivity|].
        cbn [advance trace]. eexists (_ ++ [_; _]).
        rewrite <- app_assoc. reflexivity. }
      split; [|reflexivity]. intros e' E _. now injection E as <-.
    + split.
      { split; [discriminate|]. intros (a & E & _). discriminate. }
      split; [intros e' E; injection E as <-; right; auto|].
      split; [|reflexivity]. intros e' E C'. injection E as <-. congruence.
Qed.

(** X3: when the log directory cannot be made the run ends there: the
    only thing done is the [mkdir], nothing is logged, no other directory
    is made and no request is sent.  A [FileExistsError] is raised as
    [NotADirectoryError]; any other exception is raised as it is. *)
Theorem log_directory_failure (st : St W) e w1 :
  mkdir env (log_directory config) (world st) = (Raises e, w1) ->
  main env config st
  = (Raises (if caught_by [FileExistsError] e
             then not_a_directory (log_directory config) else e),
     advance st w1 [EMkdir (log_directory config)]).
Proof.
  intros H. unfold main, bind. rewrite create_log_directory_spec, H.
  destruct (caught_by _ e); reflexivity.
Qed.

(** X4: when the download directory cannot be made the run ends before
    the login: no request is sent.  A [FileExistsError] is logged as an
    error and raised as [NotADirectoryError]; any other exception is
    raised as it is, without a log record. *)
Theorem download_directory_failure (st : St W) w1 e w2 :
  mkdir env (log_directory config) (world st) = (Returns tt, w1) ->
  mkdir env (download_directory config) w1 = (Raises e, w2) ->
  let dd := download_directory config in
  let before := [EMkdir (log_directory config);
                 ELog INFO MLoggingInitiated;
                 ELog INFO (MDownloadArchivePath dd); EMkdir dd] in
  main env config st
  = if caught_by [FileExistsError] e
    then (Raises (not_a_directory dd),
          advance st w2 (before ++ [ELog ERROR (MMustBeDirectory dd)]))
    else (Raises e, advance st w2 before).
Proof.
  intros H1 H2. cbn zeta. unfold main, bind at 1.
  rewrite create_log_directory_spec, H1.
  unfold bind at 1, logger, emit. cbn [advance world trace fst snd].
  unfold bind at 1. rewrite create_download_directory_spec. cbn zeta.
  cbn [world]. rewrite H2.
  destruct (caught_by _ e); unfold advance;
    cbn [world trace var_v var_download_destination];
    rewrite <- ?app_assoc; reflexivity.
Qed.

(** When setting up succeeds the script goes on to the download actions
    and the closing record. *)
Lemma main_after_setup (st : St W) :
  setup_succeeds env config (world st) = true ->
  main env config st
  = bind (download_actions env config (DOWNLOAD_ACTIONS config))
      (fun _ => logger INFO MTotalTime)
      (advance st (world_after_setup env config (world st))
         (setup_events config)).
Proof.
  unfold setup_succeeds, world_after_setup, setup_events. intros H.
  unfold main, bind at 1. rewrite create_log_directory_spec.
  destruct (mkdir env (log_directory config) (world st)) as [[[]|e] w1];
    [|discriminate].
  unfold bind at 1, logger at 1, emit. cbn [advance world trace fst snd].
  unfold bind at 1. rewrite create_download_directory_spec. cbn zeta.
  cbn [world].
  destruct (mkdir env (download_directory config) w1) as [[[]|e] w2];
    [|discriminate].
  unfold bind at 1. rewrite login_spec. cbn zeta.
  cbn [advance world trace var_v var_download_destination fst snd].
  destruct (session_post env (login_url config) (LOGIN_HEADERS config) false
              w2) as [[r|e] w3]; [|discriminate].
  cbn [snd] in *. apply negb_true_iff in H. rewrite H.
  unfold advance. cbn [world trace var_v var_download_destination].
  rewrite <- !app_assoc. reflexivity.
Qed.

End SetUpFacts.

(** ** The run as a whole *)
Section WholeRun.
Context {W : Type} (env : Env W) (config : Config).

Lemma count_events_none p (evs : list Event) :
  Forall (fun ev => p ev = false) evs -> count_events p evs = 0%nat.
Proof.
  unfold count_events. induction 1 as [|ev evs' A F IH]; [reflexivity|].
  cbn [List.filter]. now rewrite A.
Qed.

Lemma main_until_login (st : St W) w1 w2 :
  mkdir env (log_directory config) (world st) = (Returns tt, w1) ->
  mkdir env (download_directory config) w1 = (Returns tt, w2) ->
  main env config st
  = bind (login env config)
      (fun _ =>
         bind (download_actions env config (DOWNLOAD_ACTIONS config))
           (fun _ => logger INFO MTotalTime))
      (advance st w2
         [EMkdir (log_directory config);
          ELog INFO MLoggingInitiated;
          ELog INFO (MDownloadArchivePath (download_directory config));
          EMkdir (download_directory config)]).
Proof.
  intros H1 H2. unfold main, bind at 1.
  rewrite create_log_directory_spec, H1.
  unfold bind at 1, logger at 1, emit. cbn [advance world trace fst snd].
  unfold bind at 1. rewrite create_download_directory_spec. cbn zeta.
  cbn [world]. rewrite H2.
  unfold advance. cbn [world trace var_v var_download_destination].
  rewrite <- !app_assoc. reflexivity.
Qed.

(** X5: a failed login ends the run.  When both directories are made and
    the login POST is answered with a status in 400-599 or raises a
    [RequestException], the script logs the error and raises
    [ConnectionError]; no download action is started: nothing of the
    candidate loop or of the extraction happens, whatever the
    configuration holds. *)
Theorem login_failure_ends_run (st : St W) w1 w2 o w3 :
  mkdir env (log_directory config) (world st) = (Returns tt, w1) ->
  mkdir env (download_directory config) w1 = (Returns tt, w2) ->
  session_post env (login_url config) (LOGIN_HEADERS config) false w2
  = (o, w3) ->
  login_refused o = true ->
  let r := main env config st in
  fst r = Raises unable
  /\ world (snd r) = w3
  /\ (exists evs, trace (snd r) = evs ++ [ELog ERROR MUnableToConnect])
  /\ count_events loop_event (trace (snd r))
     = count_events loop_event (trace st)
  /\ count_events extraction_event (trace (snd r))
     = count_events extraction_event (trace st).
Proof.
  intros H1 H2 H3 Ho.
  set (st2 := advance st w2
                [EMkdir (log_directory config);
                 ELog INFO MLoggingInitiated;
                 ELog INFO (MDownloadArchivePath (download_directory config));
                 EMkdir (download_directory config)]).
  set (hello := [ELog INFO (MNowLoggingInto (BASE_URL config));
                 EPost (login_url config) (LOGIN_HEADERS config) false]).
  assert (R : exists evs,
             main env config st
             = (Raises unable,
                advance st2 w3
                  (hello ++ evs ++ [ELog ERROR MUnableToConnect]))
             /\ Forall (fun ev => loop_event ev = false
                                  /\ extraction_event ev = false) evs).
  { rewrite (main_until_login st w1 w2 H1 H2). fold st2. unfold bind at 1.
    rewrite login_spec. cbn zeta.
    change (world st2) with w2. rewrite H3.
    destruct o as [r|e]; cbn [login_refused] in Ho; rewrite Ho.
    - exists [ELog DEBUG MHttpHeaders]. split; [reflexivity|].
      repeat constructor.
    - exists []. split; [reflexivity | constructor]. }
  destruct R as (evs & R & F). cbn zeta. rewrite R. cbn [fst snd].
  split; [reflexivity|]. split; [reflexivity|]. split.
  { exists (trace st2 ++ hello ++ evs). cbn [advance trace].
    now rewrite <- !app_assoc. }
  assert (Z1 : count_events loop_event evs = 0%nat).
  { apply count_events_none. eapply Forall_impl; [exact F|].
    now intros ev [A _]. }
  assert (Z2 : count_events extraction_event evs = 0%nat).
  { apply count_events_none. eapply Forall_impl; [exact F|].
    now intros ev [_ B]. }
  subst st2 hello. cbn [advance trace].
  rewrite !count_events_app, Z1, Z2. cbn. split; lia.
Qed.

Lemma closing_logger (st : St W) :
  closes_with_total_time (logger INFO MTotalTime) st.
Proof.
  split.
  - intros _. split; [eexists; reflexivity|].
    unfold logger, emit. cbn [snd trace].
    rewrite count_events_app. cbn. lia.
  - cbn. discriminate.
Qed.

Lemma closing_bind {A} (m : M W A) (f : A -> M W unit) :
  emits (fun ev => is_total_time ev = false) m ->
  (forall a st, closes_with_total_time (f a) st) ->
  forall st, closes_with_total_time (bind m f) st.
Proof.
  intros Hm Hf st. unfold closes_with_total_time, bind.
  pose proof (emits_count _ m is_total_time st (fun _ E => E) Hm) as C.
  destruct (m st) as [[a|e] st1]; cbn [fst snd] in *.
  - destruct (Hf a st1) as [F1 F2]. rewrite <- C. split; auto.
  - split; [discriminate|]. intros _ _. exact C.
Qed.

Lemma download_actions_never_close items :
  emits (fun ev => is_total_time ev = false)
    (download_actions env config items).
Proof.
  eapply emits_weaken; [|apply download_actions_kind].
  cbn beta. intros ev.
  destruct ev as [lvl m| |url data stream|url params stream| | | | | | | |];
    try destruct lvl; try destruct m; cbn; congruence.
Qed.

(** X6: the closing record "Total script execution time" is logged
    exactly once, as the last event, by a run that returns, and never by
    a run that ends with an exception, wherever that exception comes
    from. *)
Theorem total_time_logged_iff_returns (st : St W) :
  let r := main env config st in
  (fst r = Returns tt ->
   (exists evs, trace (snd r) = evs ++ [ELog INFO MTotalTime])
   /\ count_events is_total_time (trace (snd r))
      = S (count_events is_total_time (trace st)))
  /\ (forall e,
        fst r = Raises e ->
        count_events is_total_time (trace (snd r))
        = count_events is_total_time (trace st)).
Proof.
  cbn zeta.
  change (closes_with_total_time (main env config) st).
  unfold main.
  apply closing_bind.
  { unfold create_log_directory. repeat emits_step. }
  intros _ st1. apply closing_bind.
  { unfold logger. repeat emits_step. }
  intros _ st2. apply closing_bind.
  { unfold create_download_directory, logger, logger_exception.
    repeat emits_step. }
  intros _ st3. apply closing_bind.
  { unfold login, raise_for_status, logger, logger_exception.
    repeat emits_step. }
  intros _ st4. apply closing_bind.
  { apply download_actions_never_close. }
  intros _ st5. apply closing_logger.
Qed.

Lemma download_requests_app tr1 tr2 :
  download_requests (tr1 ++ tr2)
  = download_requests tr1 ++ download_requests tr2.
Proof. apply List.filter_app. Qed.

Lemma emits_no_request {A} (P : Event -> Prop) (m : M W A) (st : St W) :
  (forall ev, P ev -> is_download_request ev = false) ->
  emits P m ->
  download_requests (trace (snd (m st))) = download_requests (trace st).
Proof.
  intros Hp Hm. destruct (Hm st) as (evs & E & F).
  rewrite E, download_requests_app.
  assert (Z : download_requests evs = []).
  { unfold download_requests. clear E.
    induction F as [|ev evs' Hev F IH]; [reflexivity|].
    cbn [List.filter]. now rewrite (Hp ev Hev). }
  rewrite Z. apply app_nil_r.
Qed.

Lemma loop_body_requests k v (st : St W) :
  exists reqs,
    download_requests (trace (snd (loop_body env config k v st)))
    = download_requests (trace st) ++ reqs
    /\ reqs `sublist_of` [request_event v].
Proof.
  rewrite loop_body_spec.
  destruct (attempt env config v (world st)) as [[] w];
    repeat match goal with
           | |- context [caught_by ?a ?b] => destruct (caught_by a b)
           end;
    cbn [snd after_body trace]; rewrite download_requests_app;
    (eexists; split; [reflexivity|]);
    unfold request_event;
    try destruct (String.eqb (normalized v) "POST"); cbn;
    first [reflexivity | apply sublist_nil_l].
Qed.

Lemma for_v_in_requests k vs (st : St W) :
  exists reqs,
    download_requests (trace (snd (for_v_in env config k vs st)))
    = download_requests (trace st) ++ reqs
    /\ reqs `sublist_of` map request_event vs.
Proof.
  revert st. induction vs as [|v vs IH]; intros st.
  - exists []. cbn. split; [now rewrite app_nil_r | reflexivity].
  - rewrite for_v_in_cons.
    destruct (loop_body_requests k v st) as (reqs1 & E1 & S1).
    assert (Stop : exists reqs,
               download_requests
                 (trace (snd (loop_body env config k v st)))
               = download_requests (trace st) ++ reqs
               /\ reqs `sublist_of` map request_event (v :: vs)).
    { exists reqs1. split; [exact E1|].
      rewrite <- (app_nil_r reqs1).
      change (map request_event (v :: vs))
        with ([request_event v] ++ map request_event vs).
      apply sublist_app; [exact S1 | apply sublist_nil_l]. }
    destruct (loop_body env config k v st) as [[[]|e] st1];
      cbn [fst snd] in *; try exact Stop.
    destruct (IH st1) as (reqs2 & E2 & S2).
    exists (reqs1 ++ reqs2). split.
    + now rewrite E2, E1, app_assoc.
    + change (map request_event (v :: vs))
        with ([request_event v] ++ map request_event vs).
      now apply sublist_app.
Qed.

Lemma download_action_requests k val (st : St W) :
  exists reqs,
    download_requests (trace (snd (download_action env config k val st)))
    = download_requests (trace st) ++ reqs
    /\ reqs `sublist_of` map request_event (as_list val).
Proof.
  unfold download_action, bind. rewrite candidate_loop_eq.
  destruct (for_v_in_requests k (as_list val) st) as (reqs & E & S).
  assert (X : forall st1,
             download_requests (trace (snd (extraction env config k st1)))
             = download_requests (trace st1)).
  { intros st1.
    apply (emits_no_request (fun ev => extraction_event ev = true));
      [|apply extraction_kind].
    intros ev.
    destruct ev as [lvl m| |url data stream|url params stream| | | | | | | |];
      try destruct stream; cbn; congruence. }
  exists reqs. split; [|exact S].
  destruct (for_v_in env config k (as_list val) st) as [[[]|e] st1];
    cbn [fst snd] in *; rewrite ?X; cbn [trace];
    rewrite ?download_requests_app, E; cbn; now rewrite ?app_nil_r.
Qed.

(** X7: a candidate is never retried and the candidates are asked in
    the order of the configuration: however the attempts end, the
    download requests that a run of download actions sends are, in
    order, requests of candidates of the configuration taken in their
    order, at most one for each place a candidate has in it. *)
Theorem at_most_one_request_per_candidate items (st : St W) :
  exists reqs,
    download_requests (trace (snd (download_actions env config items st)))
    = download_requests (trace st) ++ reqs
    /\ reqs `sublist_of` map request_event (candidates_of items).
Proof.
  revert st. induction items as [|[k val] items IH]; intros st.
  - exists []. cbn. split; [now rewrite app_nil_r | reflexivity].
  - cbn [download_actions candidates_of flat_map snd]. unfold bind.
    rewrite map_app.
    destruct (download_action_requests k val st) as (reqs1 & E1 & S1).
    destruct (download_action env config k val st) as [[[]|e] st1];
      cbn [fst snd] in *.
    + destruct (IH st1) as (reqs2 & E2 & S2).
      exists (reqs1 ++ reqs2). split.
      * now rewrite E2, E1, app_assoc.
      * now apply sublist_app.
    + exists reqs1. split; [exact E1|].
      rewrite <- (app_nil_r reqs1).
      apply sublist_app; [exact S1 | apply sublist_nil_l].
Qed.

End WholeRun.

(** ** The two variables that outlive the loop *)
Section Variables.
Context {W : Type} (I : option Candidate -> option string -> Prop).

Lemma keeps_unchanged {A} (m : M W A) :
  (forall st, var_v (snd (m st)) = var_v st
              /\ var_download_destination (snd (m st))
                 = var_download_destination st) ->
  keeps I m.
Proof. intros H st. destruct (H st) as [-> ->]. auto. Qed.

Lemma keeps_ret {A} (a : A) : keeps (W:=W) I (ret a).
Proof. apply keeps_unchanged. intros st. split; reflexivity. Qed.

Lemma keeps_raise {A} c m : keeps (W:=W) (A:=A) I (raise c m).
Proof. apply keeps_unchanged. intros st. split; reflexivity. Qed.

Lemma keeps_emit ev : keeps (W:=W) I (emit ev).
Proof. apply keeps_unchanged. intros st. split; reflexivity. Qed.

Lemma keeps_call {A} ev (op : W -> Outcome A * W) : keeps I (call ev op).
Proof.
  apply keeps_unchanged. intros st. unfold call.
  now destruct (op (world st)).
Qed.

Lemma keeps_get_v : keeps (W:=W) I get_v.
Proof.
  apply keeps_unchanged. intros st. unfold get_v, raise.
  destruct (var_v st) eqn:E; cbn; split; congruence.
Qed.

Lemma keeps_get_download_destination :
  keeps (W:=W) I get_download_destination.
Proof.
  apply keeps_unchanged. intros st. unfold get_download_destination, raise.
  destruct (var_download_destination st) eqn:E; cbn; split; congruence.
Qed.

Lemma keeps_bind {A B} (m : M W A) (f : A -> M W B) :
  keeps I m -> (forall a, keeps I (f a)) -> keeps I (bind m f).
Proof.
  intros Hm Hf st H. unfold bind. specialize (Hm st H).
  destruct (m st) as [[a|e] st1]; cbn [snd] in *; [now apply Hf | exact Hm].
Qed.

Lemma keeps_try {A} (body handler : M W A) classes :
  keeps I body -> keeps I handler ->
  keeps I (try_except body classes handler).
Proof.
  intros Hb Hh st H. unfold try_except. specialize (Hb st H).
  destruct (body st) as [[a|e] st1]; cbn [snd] in *; [exact Hb|].
  destruct (caught_by classes e); [now apply Hh | exact Hb].
Qed.

End Variables.

Ltac keeps_step :=
  first
    [ apply keeps_ret | apply keeps_raise | apply keeps_get_v
    | apply keeps_get_download_destination
    | apply keeps_emit | apply keeps_call
    | apply keeps_bind; [|intros ?]
    | apply keeps_try
    | match goal with
      | |- keeps _ (if ?b then _ else _) => destruct b
      | |- keeps _ (match ?x with _ => _ end) => destruct x
      end ].

Section Rebinding.
Context {W : Type} (env : Env W) (config : Config).

(** Lines 159-208 assign neither variable. *)
Lemma extraction_keeps I k : keeps I (extraction env config k).
Proof.
  unfold extraction, extract_member, copy_member, require_str, ask, logger,
    logger_exception.
  repeat keeps_step.
Qed.

Lemma extraction_vars k (st : St W) :
  var_v (snd (extraction env config k st)) = var_v st
  /\ var_download_destination (snd (extraction env config k st))
     = var_download_destination st.
Proof.
  apply (extraction_keeps
           (fun v d => v = var_v st /\ d = var_download_destination st)).
  auto.
Qed.

Lemma loop_body_vars k v (st : St W) :
  var_v (snd (loop_body env config k v st)) = Some v
  /\ (var_download_destination (snd (loop_body env config k v st))
      = var_download_destination st
      \/ var_download_destination (snd (loop_body env config k v st))
         = Some (local_path env config v)).
Proof.
  rewrite loop_body_spec.
  destruct (attempt env config v (world st)) as [[] w];
    repeat match goal with
           | |- context [caught_by ?a ?b] => destruct (caught_by a b)
           end;
    cbn [snd after_body var_v var_download_destination]; auto.
Qed.

Lemma destination_from_more d0 vs vs' d :
  (forall v, In v vs -> In v vs') ->
  destination_from env config d0 vs d ->
  destination_from env config d0 vs' d.
Proof.
  intros H [E|(v & Hin & E)]; [now left|]. right. eauto.
Qed.

Lemma destination_from_trans d0 d1 d vs :
  destination_from env config d0 vs d1 ->
  destination_from env config d1 vs d ->
  destination_from env config d0 vs d.
Proof.
  intros H1 [E|H2]; [now subst | now right].
Qed.

Lemma for_v_in_vars k vs (st : St W) :
  let r := for_v_in env config k vs st in
  destination_from env config (var_download_destination st) vs
    (var_download_destination (snd r))
  /\ (var_v (snd r) = var_v st
      \/ exists v, In v vs /\ var_v (snd r) = Some v).
Proof.
  revert st. induction vs as [|v vs IH]; intros st; cbn zeta.
  - cbn. split; [now left | now left].
  - rewrite for_v_in_cons.
    destruct (loop_body_vars k v st) as [V D].
    assert (D0 : destination_from env config (var_download_destination st)
                   (v :: vs)
                   (var_download_destination
                      (snd (loop_body env config k v st)))).
    { destruct D as [D|D]; [now left|]. right. exists v. cbn. auto. }
    destruct (loop_body env config k v st) as [[[]|e] st1];
      cbn [fst snd] in *.
    + split; [exact D0|]. right. exists v. cbn. auto.
    + specialize (IH st1). cbn zeta in IH. destruct IH as [I1 I2].
      split.
      * eapply destination_from_trans; [exact D0|].
        eapply destination_from_more; [|exact I1]. cbn. auto.
      * right. destruct I2 as [E|(v' & Hin & E)].
        -- exists v. cbn. split; [auto | congruence].
        -- exists v'. cbn. auto.
    + split; [exact D0|]. right. exists v. cbn. auto.
Qed.

Lemma download_action_vars k val (st : St W) :
  let r := download_action env config k val st in
  destination_from env config (var_download_destination st) (as_list val)
    (var_download_destination (snd r))
  /\ (var_v (snd r) = var_v st
      \/ exists v, In v (as_list val) /\ var_v (snd r) = Some v).
Proof.
  cbn zeta. unfold download_action, bind. rewrite candidate_loop_eq.
  pose proof (for_v_in_vars k (as_list val) st) as F. cbn zeta in F.
  destruct (for_v_in env config k (as_list val) st) as [[[]|e] st1];
    cbn [fst snd] in *; try exact F.
  - destruct (extraction_vars k st1) as [-> ->]. exact F.
  - match goal with
    | |- context [extraction env config k ?s] =>
        destruct (extraction_vars k s) as [-> ->]
    end.
    exact F.
Qed.

(** X8: whatever a run of download actions does, [download_destination]
    afterwards is what it was before or [download_directory / filename]
    for a candidate of the configuration, and [v] is what it was before
    or a candidate of the configuration; a variable that is bound stays
    bound. *)
Theorem variables_hold_configured_values items (st : St W) :
  let r := download_actions env config items st in
  destination_from env config (var_download_destination st)
    (candidates_of items) (var_download_destination (snd r))
  /\ (var_v (snd r) = var_v st
      \/ exists v, In v (candidates_of items) /\ var_v (snd r) = Some v)
  /\ (is_Some (var_download_destination st) ->
      is_Some (var_download_destination (snd r)))
  /\ (is_Some (var_v st) -> is_Some (var_v (snd r))).
Proof.
  cbn zeta.
  assert (H : destination_from env config (var_download_destination st)
                (candidates_of items)
                (var_download_destination
                   (snd (download_actions env config items st)))
              /\ (var_v (snd (download_actions env config items st))
                  = var_v st
                  \/ exists v,
                      In v (candidates_of items)
                      /\ var_v (snd (download_actions env config items st))
                         = Some v)).
  { revert st. induction items as [|[k val] items IH]; intros st.
    - cbn. split; now left.
    - cbn [download_actions candidates_of flat_map snd]. unfold bind.
      pose proof (download_action_vars k val st) as A. cbn zeta in A.
      destruct (download_action env config k val st) as [[[]|e] st1];
        cbn [fst snd] in *.
      + destruct (IH st1) as [I1 I2]. destruct A as [A1 A2]. split.
        * eapply destination_from_trans.
          -- eapply destination_from_more; [|exact A1].
             intros v Hv. apply in_or_app. now left.
          -- eapply destination_from_more; [|exact I1].
             intros v Hv. apply in_or_app. now right.
        * destruct I2 as [E|(v & Hin & E)].
          -- rewrite E. destruct A2 as [A2|(v & Hin & A2)]; [now left|].
             right. exists v. split; [|exact A2].
             apply in_or_app. now left.
          -- right. exists v. split; [|exact E].
             apply in_or_app. now right.
      + destruct A as [A1 A2]. split.
        * eapply destination_from_more; [|exact A1].
          intros v Hv. apply in_or_app. now left.
        * destruct A2 as [A2|(v & Hin & A2)]; [now left|].
          right. exists v. split; [|exact A2]. apply in_or_app. now left. }
  destruct H as [H1 H2]. split; [exact H1|]. split; [exact H2|]. split.
  - intros [d E]. destruct H1 as [->|(v & _ & ->)]; eauto.
  - intros [c E]. destruct H2 as [->|(v & _ & ->)]; eauto.
Qed.

End Rebinding.

(** ** A download action given as one dictionary *)
Section SingleDictionary.
Context {W : Type} (env : Env W) (config : Config).

Lemma single_dictionary_run k d (st : St W) :
  let r := download_action env config k (Single d) st in
  r = download_action env config k (Multiple [d]) st
  /\ r = match loop_body env config k d st with
         | (Returns Break, st1) => extraction env config k st1
         | (Returns Next, st1) =>
             extraction env config k
               (advance st1 (world st1) [ELog ERROR (MNoIteration k)])
         | (Raises e, st1) => (Raises e, st1)
         end
  /\ (exists evs,
        trace (snd r)
        = trace st
          ++ ELog INFO (MNowAttempting k (method d) (metadata d)) :: evs)
  /\ count_events (is_now_attempting k) (trace (snd r))
     = S (count_events (is_now_attempting k) (trace st))
  /\ var_v (snd r) = Some d
  /\ count_events is_download_request (trace (snd r))
     = (count_events is_download_request (trace st)
        + if supported d then 1 else 0)%nat.
Proof.
  cbn zeta.
  assert (E : download_action env config k (Single d) st
              = match loop_body env config k d st with
                | (Returns Break, st1) => extraction env config k st1
                | (Returns Next, st1) =>
                    extraction env config k
                      (advance st1 (world st1)
                         [ELog ERROR (MNoIteration k)])
                | (Raises e, st1) => (Raises e, st1)
                end).
  { unfold download_action, bind. cbn [as_list].
    rewrite candidate_loop_eq, for_v_in_cons.
    destruct (loop_body env config k d st) as [[[]|e] st1]; reflexivity. }
  split; [reflexivity|]. split; [exact E|].
  assert (B : exists evs w dd,
             snd (loop_body env config k d st)
             = after_body w st k d dd evs
             /\ count_events (is_now_attempting k) evs = 0%nat
             /\ count_events is_download_request evs
                = if supported d then 1%nat else 0%nat).
  { rewrite loop_body_spec. unfold attempt.
    assert (R : count_events (is_now_attempting k) [request_event d]
                = 0%nat
                /\ count_events is_download_request [request_event d]
                   = 1%nat).
    { unfold request_event. destruct (String.eqb _ _); auto. }
    destruct R as [R1 R2].
    destruct (supported d).
    2:{ eexists _, _, _. split; [reflexivity|]. auto. }
    destruct (answer env d (world st)) as [[r|e] w1].
    2:{ eexists _, _, _. split; [reflexivity|]. auto. }
    destruct (status_code r =? codes_ok)%Z.
    2:{ eexists _, _, _. split; [reflexivity|].
        change ([request_event d; ?x]) with ([request_event d] ++ [x]).
        rewrite !count_events_app, R1, R2. auto. }
    destruct (open_wb env _ w1) as [[[]|e] w2].
    2:{ destruct (caught_by _ e); eexists _, _, _;
          (split; [reflexivity|]);
          match goal with
          | |- context [request_event d :: ?l] =>
              change (request_event d :: l) with ([request_event d] ++ l)
          end;
          rewrite !count_events_app, R1, R2; auto. }
    destruct (copyfileobj env r _ w2) as [[[]|e] w3];
      destruct (fp_close env _ w3) as [[[]|e'] w4];
      repeat match goal with
             | |- context [caught_by ?a ?b] => destruct (caught_by a b)
             end;
      eexists _, _, _; (split; [reflexivity|]);
      match goal with
      | |- context [request_event d :: ?l] =>
          change (request_event d :: l) with ([request_event d] ++ l)
      end;
      rewrite !count_events_app, R1, R2; auto. }
  destruct B as (evs & w & dd & B & N & Q).
  assert (X : forall st1,
             var_v st1 = Some d ->
             (exists tl,
                trace st1
                = trace st
                  ++ ELog INFO (MNowAttempting k (method d) (metadata d))
                     :: tl) ->
             count_events (is_now_attempting k) (trace st1)
             = S (count_events (is_now_attempting k) (trace st)) ->
             count_events is_download_request (trace st1)
             = (count_events is_download_request (trace st)
                + if supported d then 1 else 0)%nat ->
             let r := extraction env config k st1 in
             (exists tl,
                trace (snd r)
                = trace st
                  ++ ELog INFO (MNowAttempting k (method d) (metadata d))
                     :: tl)
             /\ count_events (is_now_attempting k) (trace (snd r))
                = S (count_events (is_now_attempting k) (trace st))
             /\ var_v (snd r) = Some d
             /\ count_events is_download_request (trace (snd r))
                = (count_events is_download_request (trace st)
                   + if supported d then 1 else 0)%nat).
  { intros st1 V [tl T] C1 C2. cbn zeta.
    destruct (appends_extraction env config k st1) as [more A].
    split.
    { exists (tl ++ more). rewrite A, T, <- app_assoc. reflexivity. }
    split.
    { rewrite <- C1.
      apply (emits_count (fun ev => extraction_event ev = true));
        [|apply extraction_kind].
      intros ev. destruct ev as [[] []| | | | | | | | | | |]; cbn;
        congruence. }
    split.
    { destruct (extraction_vars env config k st1) as [-> _]. exact V. }
    rewrite <- C2.
    apply (emits_count (fun ev => extraction_event ev = true));
      [|apply extraction_kind].
    intros ev.
    destruct ev as [| |? ? []|? ? []| | | | | | | |]; cbn; congruence. }
  assert (T0 : count_events (is_now_attempting k)
                 (trace (after_body w st k d dd evs))
               = S (count_events (is_now_attempting k) (trace st))).
  { cbn [after_body trace]. rewrite count_events_app.
    change (?a :: ?b :: evs) with ([a; b] ++ evs).
    rewrite count_events_app, N. cbn. rewrite String.eqb_refl. cbn. lia. }
  assert (Q0 : count_events is_download_request
                 (trace (after_body w st k d dd evs))
               = (count_events is_download_request (trace st)
                  + if supported d then 1 else 0)%nat).
  { cbn [after_body trace]. rewrite count_events_app.
    change (?a :: ?b :: evs) with ([a; b] ++ evs).
    rewrite count_events_app, Q. cbn. lia. }
  rewrite E.
  destruct (loop_body env config k d st) as [[[]|e] st1];
    cbn [snd] in B; subst st1.
  + apply X; [reflexivity | cbn [after_body trace]; eauto | exact T0
             | exact Q0].
  + apply X; [reflexivity | | |].
    * cbn [advance after_body trace]. rewrite <- app_assoc.
      cbn [app]. eauto.
    * cbn [advance trace]. rewrite count_events_app, T0. cbn. lia.
    * cbn [advance trace]. rewrite count_events_app, Q0. cbn. lia.
  + cbn [snd]. split; [cbn [after_body trace]; eauto|].
    split; [exact T0|]. split; [reflexivity | exact Q0].
Qed.

(** C9: a download action given as one dictionary is run as the list
    holding that dictionary, and that dictionary is tried: the action is
    one pass of the loop body for it, followed by the "no iteration"
    record when the pass did not end by [break], and by the step after
    the loop; it logs "now attempting" once for it, as its first record,
    leaves it in [v], and sends its one request when its method is
    supported (none when its ASCII method is not); and a run of download
    actions that contains the action behaves the same for either form. *)
Theorem C9_single_dict_is_singleton_list k d :
  as_list (Single d) = [d]
  /\ (forall st : St W,
        let r := download_action env config k (Single d) st in
        r = download_action env config k (Multiple [d]) st
        /\ r = match loop_body env config k d st with
               | (Returns Break, st1) => extraction env config k st1
               | (Returns Next, st1) =>
                   extraction env config k
                     (advance st1 (world st1) [ELog ERROR (MNoIteration k)])
               | (Raises e, st1) => (Raises e, st1)
               end
        /\ (exists evs,
              trace (snd r)
              = trace st
                ++ ELog INFO (MNowAttempting k (method d) (metadata d))
                   :: evs)
        /\ count_events (is_now_attempting k) (trace (snd r))
           = S (count_events (is_now_attempting k) (trace st))
        /\ var_v (snd r) = Some d
        /\ (supported d = true ->
            count_events is_download_request (trace (snd r))
            = S (count_events is_download_request (trace st)))
        /\ (PyStr.is_ascii (method d) = true -> supported d = false ->
            count_events is_download_request (trace (snd r))
            = count_events is_download_request (trace st)))
  /\ (forall before rest (st : St W),
        download_actions env config (before ++ (k, Single d) :: rest) st
        = download_actions env config
            (before ++ (k, Multiple [d]) :: rest) st).
Proof.
  split; [reflexivity|]. split.
  - intros st.
    destruct (single_dictionary_run k d st) as (A & B & C & D & E & F).
    cbn zeta in *.
    repeat split; try assumption.
    + intros Hs. rewrite F, Hs. lia.
    + intros _ Hs. rewrite F, Hs. lia.
  - intros before rest.
    induction before as [|[k' val] before IH]; intros st.
    + reflexivity.
    + cbn [app download_actions]. unfold bind.
      destruct (download_action env config k' val st) as [[[]|e] st1];
        [apply IH | reflexivity].
Qed.

End SingleDictionary.

Lemma C9_witness :
  count_events is_download_request
    (trace (snd (download_action Sim.env (Sim.cfg []) "png"
                   (Single Sim.img_a) (initial Sim.world0))))
  = 1%nat
  /\ count_events is_download_request
       (trace (snd (download_action Sim.env (Sim.cfg []) "png"
                      (Single Sim.img_put) (initial Sim.world0))))
     = 0%nat.
Proof.
  split.
  - destruct (C9_single_dict_is_singleton_list Sim.env (Sim.cfg []) "png"
                Sim.img_a) as (_ & H & _).
    destruct (H (initial Sim.world0)) as (_ & _ & _ & _ & _ & H1 & _).
    apply H1. vm_compute. reflexivity.
  - destruct (C9_single_dict_is_singleton_list Sim.env (Sim.cfg []) "png"
                Sim.img_put) as (_ & H & _).
    destruct (H (initial Sim.world0)) as (_ & _ & _ & _ & _ & _ & H2).
    apply H2; vm_compute; reflexivity.
Defined.

(** ** Edge cases of a download action *)
Section EdgeCases.
Context {W : Type} (env : Env W) (config : Config).

Lemma extraction_not_requested k v (st : St W) :
  var_v st = Some v -> extract_zip v = false ->
  extraction env config k st = (Returns tt, st).
Proof.
  intros Hv Hx. unfold extraction, bind, get_v, ret. now rewrite Hv, Hx.
Qed.

Lemma extraction_unbound_destination k v (st : St W) :
  var_v st = Some v -> extract_zip v = true ->
  var_download_destination st = None ->
  extraction env config k st = (Raises (name_error "download_destination"), st).
Proof.
  intros Hv Hx Hd.
  unfold extraction, bind, get_v, get_download_destination, raise.
  now rewrite Hv, Hx, Hd.
Qed.

Lemma extraction_tests_destination k v dest (st : St W) :
  var_v st = Some v -> extract_zip v = true ->
  var_download_destination st = Some dest ->
  In (EIsZipfile dest) (trace (snd (extraction env config k st))).
Proof.
  intros Hv Hx Hd. destruct (is_zipfile env dest (world st)) eqn:Hz.
  - rewrite (extraction_of_archive env config k v dest st Hv Hx Hd Hz).
    assert (P : In (EIsZipfile dest) (trace (extracting k v dest st))).
    { cbn. apply in_or_app. right. cbn. auto. }
    pose proof (appends_In (extract_member env config k v dest)
                  (EIsZipfile dest) (extracting k v dest st)
                  (appends_extract_member env config k v dest) P) as Q.
    destruct (extract_member env config k v dest _) as [[[]|e] st1];
      cbn [snd] in Q; [|exact Q].
    apply appends_In; [apply appends_copy_member | exact Q].
  - destruct st as [w tr vv vd].
    cbn [world trace var_v var_download_destination] in *. subst vv vd.
    unfold extraction, bind, get_v, get_download_destination, ask, call,
      logger, emit.
    cbn [world trace var_v var_download_destination].
    rewrite Hx. cbn [world trace var_v var_download_destination].
    rewrite Hz. cbn. apply in_or_app. left. apply in_or_app. right.
    cbn. auto.
Qed.

(** X9: a download action with an empty list of candidates sends no
    request and logs the "no iteration" error; line 159 then reads [v] as
    an earlier action left it: [NameError] when no action has run a
    candidate yet, nothing more when that candidate did not ask for
    extraction, and otherwise the archive test on the file of the
    earlier action. *)
Theorem empty_candidate_list k (st : St W) :
  let st1 := advance st (world st) [ELog ERROR (MNoIteration k)] in
  let r := download_action env config k (Multiple []) st in
  r = extraction env config k st1
  /\ (var_v st = None -> r = (Raises (name_error "v"), st1))
  /\ (forall v,
        var_v st = Some v -> extract_zip v = false -> r = (Returns tt, st1))
  /\ (forall v dest,
        var_v st = Some v -> extract_zip v = true ->
        var_download_destination st = Some dest ->
        In (EIsZipfile dest) (trace (snd r))).
Proof.
  cbn zeta.
  assert (E : download_action env config k (Multiple []) st
              = extraction env config k
                  (advance st (world st) [ELog ERROR (MNoIteration k)])).
  { reflexivity. }
  rewrite E. split; [reflexivity|]. split; [|split].
  - intros Hv. unfold extraction, bind, get_v, raise. cbn [advance var_v].
    now rewrite Hv.
  - intros v Hv Hx. now apply (extraction_not_requested k v).
  - intros v dest Hv Hx Hd. now apply (extraction_tests_destination k v).
Qed.

Lemma for_v_in_all_refused k vs (st : St W) :
  all_refused env config vs (world st) = true ->
  let r := for_v_in env config k vs st in
  fst r = Returns Exhausted
  /\ var_download_destination (snd r) = var_download_destination st
  /\ var_v (snd r) = match last vs with
                     | Some v => Some v
                     | None => var_v st
                     end.
Proof.
  revert st. induction vs as [|v vs IH]; intros st H; cbn zeta.
  - cbn. auto.
  - cbn [all_refused] in H. rewrite for_v_in_cons, loop_body_spec.
    destruct (attempt env config v (world st)) as [[] w]; try discriminate.
    specialize (IH (after_body w st k v (var_download_destination st)
                      [request_event v;
                       ELog WARNING
                         (MNotStarted k (method v) (metadata v))]) H).
    cbn zeta in IH. destruct IH as (I1 & I2 & I3).
    split; [exact I1|]. split; [exact I2|].
    rewrite I3. cbn [after_body var_v].
    destruct vs as [|c vs]; [reflexivity|]. rewrite last_cons_cons.
    destruct (last (c :: vs)) eqn:L; [reflexivity|].
    apply last_None in L. discriminate.
Qed.

(** X10: when every candidate of a download action is answered with a
    status other than 200, the loop leaves [download_destination] as it
    found it and [v] at the last candidate.  If that candidate asks for
    extraction, the run ends with [NameError] when no earlier download
    bound [download_destination], and otherwise the archive test is made
    on the path an earlier download left there; if it does not ask for
    extraction nothing more is done. *)
Theorem refused_action_uses_earlier_destination k vs v (st : St W) :
  all_refused env config (vs ++ [v]) (world st) = true ->
  let l := candidate_loop env config k (vs ++ [v]) st in
  let r := download_action env config k (Multiple (vs ++ [v])) st in
  fst l = Returns Exhausted
  /\ var_v (snd l) = Some v
  /\ var_download_destination (snd l) = var_download_destination st
  /\ (extract_zip v = false -> r = (Returns tt, snd l))
  /\ (extract_zip v = true ->
      var_download_destination st = None ->
      r = (Raises (name_error "download_destination"), snd l))
  /\ (forall dest,
        extract_zip v = true ->
        var_download_destination st = Some dest ->
        In (EIsZipfile dest) (trace (snd r))).
Proof.
  intros H. cbn zeta.
  unfold download_action, bind. cbn [as_list].
  rewrite candidate_loop_eq.
  destruct (for_v_in_all_refused k (vs ++ [v]) st H) as (E1 & E2 & E3).
  rewrite last_snoc in E3.
  destruct (for_v_in env config k (vs ++ [v]) st) as [o st1].
  cbn [fst snd] in *. subst o. cbn [fst snd var_v var_download_destination].
  split; [reflexivity|]. split; [exact E3|]. split; [exact E2|].
  split; [|split].
  - intros Hx. now apply (extraction_not_requested k v).
  - intros Hx Hd. apply (extraction_unbound_destination k v); auto.
    cbn. congruence.
  - intros dest Hx Hd. apply (extraction_tests_destination k v); auto.
    cbn. congruence.
Qed.

Lemma loop_body_escapes k v (st : St W) e :
  escaping v (fst (attempt env config v (world st))) = Some e ->
  fst (loop_body env config k v st) = Raises e
  /\ var_v (snd (loop_body env config k v st)) = Some v.
Proof.
  rewrite loop_body_spec. unfold escaping.
  destruct (attempt env config v (world st)) as [[] w]; cbn [fst];
    repeat match goal with
           | |- context [caught_by ?a ?b] => destruct (caught_by a b)
           end;
    intros [= <-] || discriminate; auto.
Qed.

(** X11: an exception that the loop body does not catch ends the whole
    run.  When the candidates before [v] fail and the attempt of [v] ends
    with the [ValueError] of line 138, with what the request raised, or
    with an exception of the write that is neither a [ConnectionError]
    nor an [IOError], the run of download actions raises that exception:
    the candidates after [v] and the download actions after this one play
    no part, the "no iteration" record is not logged and no extraction is
    tried. *)
Theorem loop_error_ends_run k pre v post rest (st : St W) e :
  all_fail env config pre (world st) = true ->
  escaping v (fst (attempt env config v
                     (world_after env config pre (world st)))) = Some e ->
  let r := download_actions env config
             ((k, Multiple (pre ++ v :: post)) :: rest) st in
  fst r = Raises e
  /\ r = download_actions env config [(k, Multiple (pre ++ [v]))] st
  /\ var_v (snd r) = Some v
  /\ count_events is_no_iteration (trace (snd r))
     = count_events is_no_iteration (trace st)
  /\ count_events extraction_event (trace (snd r))
     = count_events extraction_event (trace st).
Proof.
  intros Hpre He. cbn zeta. cbn [download_actions].
  unfold bind at 1 3. unfold download_action, bind. cbn [as_list].
  rewrite !candidate_loop_eq, !for_v_in_app.
  destruct (for_v_in_all_fail env config k pre st Hpre)
    as (E1 & E2 & _ & E4 & _).
  pose proof (emits_count _ (for_v_in env config k pre) extraction_event st
                (kinds_are_disjoint) (for_v_in_kind env config k pre)) as X1.
  destruct (for_v_in env config k pre st) as [o st1].
  cbn [fst snd] in *. subst o. rewrite <- E2 in He.
  rewrite !for_v_in_cons.
  destruct (loop_body_escapes k v st1 e He) as [L1 L2].
  pose proof (emits_count _ (loop_body env config k v) extraction_event st1
                (kinds_are_disjoint) (loop_body_kind env config k v)) as X2.
  pose proof (emits_count (fun ev => loop_event ev = true)
                (loop_body env config k v) is_no_iteration st1) as X3.
  assert (N : count_events is_no_iteration
                (trace (snd (loop_body env config k v st1)))
              = count_events is_no_iteration (trace st1)).
  { rewrite loop_body_spec.
    destruct (attempt env config v (world st1)) as [[] w];
      repeat match goal with
             | |- context [caught_by ?a ?b] => destruct (caught_by a b)
             end;
      cbn [snd after_body trace]; rewrite count_events_app;
      unfold request_event;
      try destruct (String.eqb (normalized v) "POST"); cbn; lia. }
  clear X3.
  destruct (loop_body env config k v st1) as [o st2].
  cbn [fst snd] in *. subst o. cbn [fst snd].
  repeat split; try assumption; congruence.
Qed.

(** X12: an exception of the extraction that line 177 does not catch
    (neither [BadZipFile] nor an [IOError]) ends the step at the failing
    library call: it is raised as it is, nothing is logged about it and
    the copy to the final destination is not attempted. *)
Theorem extraction_error_ends_step k v dest e w' calls (st : St W) :
  var_v st = Some v ->
  extract_zip v = true ->
  var_download_destination st = Some dest ->
  is_zipfile env dest (world st) = true ->
  extract_escapes env config v dest (world st) = Some (e, w', calls) ->
  extraction env config k st
  = (Raises e, advance (extracting k v dest st) w' calls)
  /\ Forall (fun ev => match ev with
                       | EZipFile _ | EExtract _ _ _ => True
                       | _ => False
                       end) calls.
Proof.
  intros Hv Hx Hd Hz He.
  rewrite (extraction_of_archive env config k v dest st Hv Hx Hd Hz).
  rewrite extract_member_spec. cbn zeta.
  change (world (extracting k v dest st)) with (world st).
  unfold extract_escapes in He.
  destruct (ZipFile env dest (world st)) as [[[]|e1] w1].
  - destruct (zip_extract env dest _ _ w1) as [[[]|e2] w2];
      [discriminate|].
    destruct (caught_by _ e2); [discriminate|].
    injection He as <- <- <-. split; [reflexivity|]. repeat constructor.
  - destruct (caught_by _ e1); [discriminate|].
    injection He as <- <- <-. split; [reflexivity|]. repeat constructor.
Qed.

(** X13: when lines 167-181 have not raised (the member was extracted,
    or the extraction failed with a [BadZipFile] or an [IOError] and that
    was logged), a candidate that names no final destination makes line
    182 raise [TypeError] before anything is looked up; and one that
    names a final destination but no member makes line 195 raise
    [TypeError] once the existence test of the final destination has
    returned and its result has been logged.  The [TypeError] is not
    caught and in neither case is anything copied. *)
Theorem missing_member_or_destination k v dest (st : St W) :
  var_v st = Some v ->
  extract_zip v = true ->
  var_download_destination st = Some dest ->
  is_zipfile env dest (world st) = true ->
  let x := extract_member env config k v dest (extracting k v dest st) in
  fst x = Returns tt ->
  (zip_member_final_destination v = None ->
   extraction env config k st = (Raises none_type_error, snd x))
  /\ (forall fd found w2,
        zip_member_final_destination v = Some fd ->
        zip_member_to_extract v = None ->
        path_exists env fd (world (snd x)) = (Returns found, w2) ->
        extraction env config k st
        = (Raises none_type_error,
           advance (snd x) w2
             [EExists fd;
              if found : bool
              then ELog WARNING (MFinalExists fd None)
              else ELog INFO (MFinalNotYet fd None)])).
Proof.
  intros Hv Hx Hd Hz x Hret.
  rewrite (extraction_of_archive env config k v dest st Hv Hx Hd Hz).
  fold x. destruct x as [o st1]. cbn [fst snd] in *. subst o.
  split.
  - intros Hfd. unfold copy_member, bind, require_str, raise.
    now rewrite Hfd.
  - intros fd found w2 Hfd Hm He.
    unfold copy_member, try_except, bind, call, logger, emit,
      require_str, raise, ret, advance.
    rewrite Hfd, Hm. cbn [world trace var_v var_download_destination].
    rewrite He. destruct found; cbn;
      rewrite <- ?app_assoc; reflexivity.
Qed.

End EdgeCases.

(** ** Which methods are accepted *)
Section Methods.
Import PyStr.

Lemma is_space_upper_char c : is_space (upper_char c) = is_space c.
Proof. destruct c as [[] [] [] [] [] [] [] []]; reflexivity. Qed.

Lemma all_space_upper s : all_space (upper s) = all_space s.
Proof.
  induction s as [|c s IH]; simpl; [reflexivity|].
  now rewrite is_space_upper_char, IH.
Qed.

Lemma lstrip_decompose s :
  exists l, s = (l ++ lstrip s)%string /\ all_space l = true.
Proof.
  induction s as [|c s (l & E & H)]; [now exists EmptyString|].
  simpl. destruct (is_space c) eqn:C.
  - exists (String c l). split.
    + exact (f_equal (String c) E).
    + simpl. now rewrite C, H.
  - now exists EmptyString.
Qed.

Lemma rstrip_decompose s :
  exists r, s = (rstrip s ++ r)%string /\ all_space r = true.
Proof.
  induction s as [|c s (r & E & H)]; [now exists EmptyString|].
  simpl. destruct (rstrip s) as [|a b] eqn:R.
  - change (s = r) in E. subst r. destruct (is_space c) eqn:C.
    + exists (String c s). split; [reflexivity|]. simpl. now rewrite C, H.
    + exists s. split; [reflexivity | exact H].
  - exists r. split; [exact (f_equal (String c) E) | exact H].
Qed.

Lemma upper_split a : forall m b,
  upper m = (a ++ b)%string ->
  exists ma mb, m = (ma ++ mb)%string /\ upper ma = a /\ upper mb = b.
Proof.
  induction a as [|x a IH]; intros m b E.
  - exists EmptyString, m. auto.
  - destruct m as [|c m]; [discriminate|]. simpl in E.
    injection E as Ex E. destruct (IH m b E) as (ma & mb & -> & Ha & Hb).
    exists (String c ma), mb. simpl. now rewrite Ex, Ha.
Qed.

(** What [strip] returns has whitespace on either side of it in the
    string. *)
Lemma strip_decompose s :
  exists l r, s = (l ++ strip s ++ r)%string
              /\ all_space l = true /\ all_space r = true.
Proof.
  destruct (lstrip_decompose s) as (l & E & Hl).
  destruct (rstrip_decompose (lstrip s)) as (r & E' & Hr).
  exists l, r. unfold strip. now rewrite <- E', <- E.
Qed.

Lemma normal_form_origin m x :
  strip (upper m) = x ->
  exists l core r,
    m = (l ++ core ++ r)%string
    /\ all_space l = true /\ all_space r = true /\ upper core = x.
Proof.
  intros E. destruct (strip_decompose (upper m)) as (l' & r' & D & Hl & Hr).
  rewrite E in D.
  destruct (upper_split l' m _ D) as (ml & m2 & -> & U1 & U2).
  destruct (upper_split x m2 _ U2) as (core & mr & -> & U3 & U4).
  exists ml, core, mr. split; [reflexivity|].
  rewrite <- all_space_upper, U1, <- (all_space_upper mr), U4. auto.
Qed.

(** X14: a method is accepted exactly when it is "get" or "post" in any
    mix of upper and lower case, with any whitespace before and after
    it and none inside. *)
Theorem accepted_methods v :
  supported v = true <->
  exists l core r,
    method v = (l ++ core ++ r)%string
    /\ all_space l = true /\ all_space r = true
    /\ (upper core = "POST" \/ upper core = "GET").
Proof.
  unfold supported, normalized. split.
  - intros H. apply orb_prop in H as [H|H]; apply String.eqb_eq in H;
      destruct (normal_form_origin _ _ H) as (l & core & r & E & Hl & Hr & U);
      exists l, core, r; auto.
  - intros (l & core & r & E & Hl & Hr & U). rewrite E.
    rewrite strip_upper_trim by assumption.
    destruct U as [-> | ->]; reflexivity.
Qed.

End Methods.

(** ** Runs that meet no uncaught failure *)
Section QuietRuns.
Context {W : Type} (env : Env W) (config : Config).
Hypothesis env_tame : tame env.

Lemma loop_body_one_request k v (st : St W) :
  supported v = true ->
  let r := loop_body env config k v st in
  (exists ctl, fst r = Returns ctl)
  /\ var_v (snd r) = Some v
  /\ download_requests (trace (snd r))
     = download_requests (trace st) ++ [request_event v].
Proof.
  intros Hs. cbn zeta.
  pose proof (attempt_tame env config env_tame v (world st) Hs) as T.
  rewrite loop_body_spec.
  destruct (attempt env config v (world st)) as [[] w]; cbn [fst] in *;
    try contradiction; rewrite ?T; cbn [fst snd after_body trace var_v];
    (split; [eauto|]); (split; [reflexivity|]);
    rewrite download_requests_app; f_equal;
    unfold request_event; destruct (String.eqb (normalized v) "POST");
    reflexivity.
Qed.

Lemma plain_is_supported v : plain_candidate v = true -> supported v = true.
Proof.
  unfold plain_candidate. intros H. now apply andb_prop in H as [-> _].
Qed.

Lemma plain_action_returns k val (st : St W) :
  plain_action (k, val) = true ->
  let r := download_action env config k val st in
  fst r = Returns tt
  /\ count_events extraction_event (trace (snd r))
     = count_events extraction_event (trace st).
Proof.
  unfold plain_action. cbn [snd]. intros H. cbn zeta.
  destruct (as_list val) as [|v vs] eqn:E; [discriminate|].
  assert (Hok : forallb supported (v :: vs) = true).
  { apply forallb_forall. intros c Hc. apply plain_is_supported.
    eapply forallb_forall in H; eauto. }
  destruct (for_v_in_tame env config env_tame k (v :: vs) st Hok)
    as ([ex F1] & F2).
  destruct F2 as (c & Hin & Hc); [discriminate|].
  assert (Hx : extract_zip c = false).
  { eapply forallb_forall in H; eauto. unfold plain_candidate in H.
    apply andb_prop in H as [_ H]. now apply negb_true_iff in H. }
  pose proof (emits_count _ (candidate_loop env config k (v :: vs))
                extraction_event st (kinds_are_disjoint)
                (candidate_loop_kind env config k (v :: vs))) as X.
  unfold download_action, bind. rewrite E.
  rewrite candidate_loop_eq in *.
  destruct (for_v_in env config k (v :: vs) st) as [o st1].
  cbn [fst snd] in *. subst o.
  destruct ex; cbn [fst snd] in *.
  - rewrite (extraction_not_requested env config k c) by assumption.
    auto.
  - rewrite (extraction_not_requested env config k c) by assumption.
    auto.
Qed.

Lemma plain_actions_return items (st : St W) :
  forallb plain_action items = true ->
  let r := download_actions env config items st in
  fst r = Returns tt
  /\ count_events extraction_event (trace (snd r))
     = count_events extraction_event (trace st).
Proof.
  revert st. induction items as [|[k val] items IH]; intros st H.
  - cbn. auto.
  - cbn [forallb] in H. apply andb_prop in H as [H1 H2].
    destruct (plain_action_returns k val st H1) as [A1 A2].
    cbn zeta. cbn [download_actions]. unfold bind.
    destruct (download_action env config k val st) as [o st1].
    cbn [fst snd] in *. subst o.
    destruct (IH st1 H2) as [I1 I2]. split; [exact I1 | congruence].
Qed.

(** X15: download actions that never ask for extraction cannot meet the
    unbound [download_destination].  In a world where requests return a
    response and a write raises only what line 148 catches, a run of
    download actions that each have a candidate, all with a supported
    method and [extract_zip] false, returns from any state, the initial
    one included, and nothing of lines 159-208 is done. *)
Theorem plain_actions_never_extract items (st : St W) :
  forallb plain_action items = true ->
  let r := download_actions env config items st in
  fst r = Returns tt
  /\ count_events extraction_event (trace (snd r))
     = count_events extraction_event (trace st).
Proof. apply plain_actions_return. Qed.

Lemma single_action_one_request k d (st : St W) :
  plain_candidate d = true ->
  let r := download_action env config k (Single d) st in
  fst r = Returns tt
  /\ download_requests (trace (snd r))
     = download_requests (trace st) ++ [request_event d].
Proof.
  intros H. cbn zeta.
  assert (Hs : supported d = true).
  { unfold plain_candidate in H. now apply andb_prop in H as [? _]. }
  assert (Hx : extract_zip d = false).
  { unfold plain_candidate in H. apply andb_prop in H as [_ H].
    now apply negb_true_iff in H. }
  destruct (loop_body_one_request k d st Hs) as ([ctl L1] & L2 & L3).
  unfold download_action, bind. cbn [as_list].
  rewrite candidate_loop_eq, for_v_in_cons.
  destruct (loop_body env config k d st) as [o st1].
  cbn [fst snd] in *. subst o.
  destruct ctl; cbn [for_v_in ret fst snd].
  - rewrite (extraction_not_requested env config k d) by assumption.
    auto.
  - rewrite (extraction_not_requested env config k d) by assumption.
    cbn [fst snd trace]. split; [reflexivity|].
    rewrite download_requests_app, L3. cbn. now rewrite app_nil_r.
Qed.

Lemma singles_one_request_each ds (st : St W) :
  forallb (fun kd => plain_candidate (snd kd)) ds = true ->
  let r := download_actions env config (singles ds) st in
  fst r = Returns tt
  /\ download_requests (trace (snd r))
     = download_requests (trace st)
       ++ map (fun kd => request_event (snd kd)) ds.
Proof.
  revert st. induction ds as [|[k d] ds IH]; intros st H.
  - cbn. now rewrite app_nil_r.
  - cbn [forallb snd] in H. apply andb_prop in H as [H1 H2].
    destruct (single_action_one_request k d st H1) as [A1 A2].
    cbn zeta. cbn [singles map fst snd download_actions]. unfold bind.
    destruct (download_action env config k (Single d) st) as [o st1].
    cbn [fst snd] in *. subst o.
    destruct (IH st1 H2) as [I1 I2]. split; [exact I1|].
    unfold singles in I2. rewrite I2, A2, <- app_assoc. reflexivity.
Qed.

(** X16: when every download action is one dictionary with a supported
    method and [extract_zip] false, a run in such a world sends exactly
    one download request per action, in the order of the configuration,
    whatever the statuses and caught write errors. *)
Theorem single_actions_send_one_request_each ds (st : St W) :
  forallb (fun kd => plain_candidate (snd kd)) ds = true ->
  let r := download_actions env config (singles ds) st in
  fst r = Returns tt
  /\ download_requests (trace (snd r))
     = download_requests (trace st)
       ++ map (fun kd => request_event (snd kd)) ds.
Proof. apply singles_one_request_each. Qed.

End QuietRuns.

(** ** The example configuration *)
Section Example.
Context {W : Type} (env : Env W).
Variable timestamp : string.

Lemma example_actions :
  DOWNLOAD_ACTIONS (ExampleConfig.config timestamp)
  = singles (map (fun t => (t, ExampleConfig.image_action timestamp t))
               ExampleConfig.image_types).
Proof. reflexivity. Qed.

Lemma append_inj_l a b c : (a ++ b)%string = (a ++ c)%string -> b = c.
Proof.
  induction a as [|x a IH]; simpl; [auto|]. intros E. injection E as E.
  auto.
Qed.

(** X17: the configuration of [config.py] suits the script for every
    timestamp: its four download actions are keyed by the image types in
    order, each is one dictionary with method "get" and no extraction,
    and they are saved under four different filenames; so, in a world
    where requests return a response and writes raise only what is
    caught, once the directories are made and the login is accepted the
    run returns, having sent exactly the four GET requests for png,
    jpeg, webp and svg in that order and done nothing of the
    extraction. *)
Theorem example_configuration_runs (w : W) :
  tame env ->
  setup_succeeds env (ExampleConfig.config timestamp) w = true ->
  let actions := DOWNLOAD_ACTIONS (ExampleConfig.config timestamp) in
  let r := main env (ExampleConfig.config timestamp) (initial w) in
  map fst actions = ["png"; "jpeg"; "webp"; "svg"]
  /\ forallb plain_action actions = true
  /\ NoDup (map filename (candidates_of actions))
  /\ fst r = Returns tt
  /\ download_requests (trace (snd r))
     = [EGet "http://httpbin.org/image/png" [] true;
        EGet "http://httpbin.org/image/jpeg" [] true;
        EGet "http://httpbin.org/image/webp" [] true;
        EGet "http://httpbin.org/image/svg" [] true]
  /\ count_events extraction_event (trace (snd r)) = 0%nat.
Proof.
  intros T S. cbn zeta.
  split; [reflexivity|]. split; [reflexivity|]. split.
  { assert (Inj : forall a b,
               filename (ExampleConfig.image_action timestamp a)
               = filename (ExampleConfig.image_action timestamp b) ->
               a = b).
    { intros a b E. unfold ExampleConfig.image_action in E.
      cbn [filename] in E.
      apply append_inj_l in E. apply append_inj_l in E.
      now apply append_inj_l in E. }
    change (NoDup (map (fun t => filename
                                   (ExampleConfig.image_action timestamp t))
                     ExampleConfig.image_types)).
    unfold ExampleConfig.image_types. cbn [map].
    repeat match goal with
           | |- NoDup [] => constructor
           | |- NoDup (_ :: _) => constructor
           | |- _ ∉ _ =>
               let H := fresh in
               intros H;
               repeat (apply elem_of_cons in H;
                       destruct H as [H|H]; [apply Inj in H; discriminate|]);
               apply elem_of_nil in H; exact H
           end. }
  rewrite (main_after_setup env _ (initial w) S).
  set (st0 := advance (initial w) _ _).
  assert (R0 : download_requests (trace st0) = []) by reflexivity.
  assert (X0 : count_events extraction_event (trace st0) = 0%nat)
    by reflexivity.
  destruct (singles_one_request_each env (ExampleConfig.config timestamp) T
              (map (fun t => (t, ExampleConfig.image_action timestamp t))
                 ExampleConfig.image_types) st0 eq_refl) as [A1 A2].
  destruct (plain_actions_return env (ExampleConfig.config timestamp)
              T (DOWNLOAD_ACTIONS (ExampleConfig.config timestamp)) st0
              eq_refl) as [_ A3].
  rewrite <- example_actions in A1, A2.
  unfold bind.
  destruct (download_actions env (ExampleConfig.config timestamp)
              (DOWNLOAD_ACTIONS (ExampleConfig.config timestamp)) st0)
    as [o st1].
  cbn [fst snd] in *. subst o. unfold logger, emit. cbn [fst snd trace].
  split; [reflexivity|]. split.
  - rewrite download_requests_app, A2, R0. reflexivity.
  - rewrite count_events_app, A3, X0. reflexivity.
Qed.

End Example.

(** ** Edge cases of the extraction directory *)
Section Stem.
Context {W : Type} (env : Env W) (config : Config).

Lemma split_not_empty sep s : PyStr.split sep s <> [].
Proof.
  destruct s as [|c s]; cbn [PyStr.split]; [discriminate|].
  destruct (Ascii.eqb c sep); [discriminate|].
  destruct (PyStr.split sep s); discriminate.
Qed.

(** X18: taking the first piece of [filename.split('.')] cannot fail, as
    the split is never empty.  For a filename without '.' the extraction
    directory is the path of the downloaded file itself, and for a
    filename that starts with '.' it is the download directory joined
    with the empty string. *)
Theorem extraction_directory_edge_cases v :
  PyStr.split "." (filename v) <> []
  /\ (PyStr.contains "." (filename v) = false ->
      zip_file_contents_directory env config v = local_path env config v)
  /\ (forall rest,
        filename v = String "." rest ->
        zip_file_contents_directory env config v
        = joinpath env (download_directory config) "").
Proof.
  split; [apply split_not_empty|]. split.
  - intros H. unfold zip_file_contents_directory, local_path.
    now rewrite split_first, truncate_without_sep.
  - intros rest E. unfold zip_file_contents_directory.
    now rewrite split_first, E.
Qed.

End Stem.

(** ** The further properties in the concrete world *)

(** A body longer than the disk takes is written as far as it goes, the
    error is caught and the partial file stays. *)
Example scenario_partial_file :
  let r := candidate_loop Sim.env (Sim.cfg []) "png" [Sim.img_a]
             (initial Sim.world_full) in
  fst r = Returns Exhausted
  /\ Sim.files (world (snd r)) !! "arch/a.png" = Some "imag"
  /\ var_download_destination (snd r) = Some "arch/a.png".
Proof. run. Qed.

Lemma login_outcome_witness :
  fst (login Sim.env (Sim.cfg []) (initial Sim.world0)) = Returns tt.
Proof.
  destruct (login_outcome Sim.env (Sim.cfg []) (initial Sim.world0))
    as [H _].
  apply H. exists {| status_code := 200; raw := "welcome" |}.
  split; [vm_compute; reflexivity | left; vm_compute; reflexivity].
Defined.

Lemma log_directory_failure_witness :
  fst (main Sim.env (Sim.cfg []) (initial Sim.world_logs_taken))
  = Raises (not_a_directory "logs").
Proof.
  rewrite (log_directory_failure Sim.env (Sim.cfg [])
             (initial Sim.world_logs_taken)
             (Build_Exc FileExistsError (MText "File exists"))
             Sim.world_logs_taken);
    [reflexivity | vm_compute; reflexivity].
Defined.

Lemma download_directory_failure_witness :
  fst (main Sim.env (Sim.cfg []) (initial Sim.world_arch_taken))
  = Raises (not_a_directory "arch").
Proof.
  rewrite (download_directory_failure Sim.env (Sim.cfg [])
             (initial Sim.world_arch_taken) Sim.world_arch_taken
             (Build_Exc FileExistsError (MText "File exists"))
             Sim.world_arch_taken);
    [reflexivity | vm_compute; reflexivity | vm_compute; reflexivity].
Defined.

Lemma login_failure_ends_run_witness :
  let r := main Sim.env (Sim.cfg [("png", Single Sim.img_a)])
             (initial Sim.world_refused) in
  fst r = Raises unable
  /\ count_events loop_event (trace (snd r)) = 0%nat.
Proof.
  destruct (login_failure_ends_run Sim.env
              (Sim.cfg [("png", Single Sim.img_a)])
              (initial Sim.world_refused) Sim.world_refused
              Sim.world_refused
              (Returns {| status_code := 403; raw := "" |})
              Sim.world_refused)
    as (H1 & _ & _ & H4 & _);
    [vm_compute; reflexivity | vm_compute; reflexivity
    | vm_compute; reflexivity | vm_compute; reflexivity |].
  split; [exact H1 | exact H4].
Defined.

Lemma total_time_logged_iff_returns_witness :
  count_events is_total_time
    (trace (snd (main Sim.env (Sim.cfg [("png", Single Sim.img_a)])
                   (initial Sim.world0))))
  = 1%nat.
Proof.
  destruct (total_time_logged_iff_returns Sim.env
              (Sim.cfg [("png", Single Sim.img_a)]) (initial Sim.world0))
    as [H _].
  destruct H as [_ H]; [vm_compute; reflexivity | exact H].
Defined.

Lemma variables_hold_configured_values_witness :
  let st := snd (candidate_loop Sim.env (Sim.cfg []) "a" [Sim.img_b]
                   (initial Sim.world0)) in
  is_Some (var_download_destination
             (snd (download_actions Sim.env (Sim.cfg [])
                     [("b", Multiple [Sim.img_gone; Sim.img_put])] st))).
Proof.
  intros st.
  destruct (variables_hold_configured_values Sim.env (Sim.cfg [])
              [("b", Multiple [Sim.img_gone; Sim.img_put])] st)
    as (_ & _ & H & _).
  apply H. exists "arch/b.png". vm_compute. reflexivity.
Defined.

Lemma empty_candidate_list_witness :
  fst (download_action Sim.env (Sim.cfg []) "none" (Multiple [])
         (initial Sim.world0))
  = Raises (name_error "v").
Proof.
  destruct (empty_candidate_list Sim.env (Sim.cfg []) "none"
              (initial Sim.world0)) as (_ & H & _).
  rewrite H; reflexivity.
Defined.

Lemma refused_action_uses_earlier_destination_witness :
  fst (download_action Sim.env (Sim.cfg []) "t"
         (Multiple ([Sim.img_gone] ++ [Sim.zip_gone])) (initial Sim.world0))
  = Raises (name_error "download_destination").
Proof.
  destruct (refused_action_uses_earlier_destination Sim.env (Sim.cfg []) "t"
              [Sim.img_gone] Sim.zip_gone (initial Sim.world0))
    as (_ & _ & _ & _ & H & _); [vm_compute; reflexivity|].
  rewrite H; reflexivity.
Defined.

Lemma loop_error_ends_run_witness :
  fst (download_actions Sim.env (Sim.cfg [])
         [("a", Multiple ([Sim.img_gone] ++ Sim.img_nowhere :: [Sim.img_b]));
          ("b", Single Sim.img_b)]
         (initial Sim.world0))
  = Raises (Build_Exc RequestsConnectionError
              (MText "Failed to establish a connection")).
Proof.
  destruct (loop_error_ends_run Sim.env (Sim.cfg []) "a" [Sim.img_gone]
              Sim.img_nowhere [Sim.img_b] [("b", Single Sim.img_b)]
              (initial Sim.world0)
              (Build_Exc RequestsConnectionError
                 (MText "Failed to establish a connection")))
    as [H _];
    [vm_compute; reflexivity | vm_compute; reflexivity | exact H].
Defined.

Lemma extraction_error_ends_step_witness :
  let st := snd (candidate_loop Sim.env (Sim.cfg []) "a"
                   [Sim.zip_other_member] (initial Sim.world0)) in
  fst (extraction Sim.env (Sim.cfg []) "a" st)
  = Raises (Build_Exc KeyError
              (MText "There is no item named so in the archive")).
Proof.
  intros st.
  destruct (extraction_error_ends_step Sim.env (Sim.cfg []) "a"
              Sim.zip_other_member "arch/d.zip"
              (Build_Exc KeyError
                 (MText "There is no item named so in the archive"))
              (world st)
              [EZipFile "arch/d.zip";
               EExtract "arch/d.zip" (Some "absent.csv") "arch/d"]
              st)
    as [H _];
    [vm_compute; reflexivity | vm_compute; reflexivity
    | vm_compute; reflexivity | vm_compute; reflexivity
    | vm_compute; reflexivity |].
  rewrite H. reflexivity.
Defined.

Lemma missing_member_or_destination_witness :
  (let st := snd (candidate_loop Sim.env (Sim.cfg []) "a"
                    [Sim.zip_no_destination] (initial Sim.world0)) in
   let r := extraction Sim.env (Sim.cfg []) "a" st in
   fst r = Raises none_type_error
   /\ count_events is_copy (trace (snd r)) = 0%nat)
  /\ (let st := snd (candidate_loop Sim.env (Sim.cfg []) "a"
                       [Sim.zip_bad_no_member] (initial Sim.world0)) in
      let r := extraction Sim.env (Sim.cfg []) "a" st in
      fst r = Raises none_type_error
      /\ In (EExists "out/m.csv") (trace (snd r))
      /\ count_events is_copy (trace (snd r)) = 0%nat).
Proof.
  split.
  - intros st.
    destruct (missing_member_or_destination Sim.env (Sim.cfg []) "a"
                Sim.zip_no_destination "arch/d.zip" st)
      as [H _];
      [vm_compute; reflexivity | vm_compute; reflexivity
      | vm_compute; reflexivity | vm_compute; reflexivity
      | vm_compute; reflexivity |].
    cbv zeta. rewrite H; [|reflexivity].
    split; [reflexivity | vm_compute; reflexivity].
  - intros st.
    destruct (missing_member_or_destination Sim.env (Sim.cfg []) "a"
                Sim.zip_bad_no_member "arch/d.zip" st)
      as [_ H];
      [vm_compute; reflexivity | vm_compute; reflexivity
      | vm_compute; reflexivity | vm_compute; reflexivity
      | vm_compute; reflexivity |].
    cbv zeta. erewrite (H "out/m.csv" false);
      [|reflexivity | reflexivity | vm_compute; reflexivity].
    split; [reflexivity|]. split; [|vm_compute; reflexivity].
    cbn [snd advance trace]. apply in_or_app. right. cbn. auto.
Defined.

Lemma accepted_methods_witness : supported Sim.img_a = true.
Proof.
  apply (accepted_methods Sim.img_a). exists " ", "Get", " ".
  repeat split; try reflexivity. right. reflexivity.
Defined.

Lemma plain_actions_never_extract_witness :
  fst (download_actions Sim.calm (Sim.cfg [])
         [("a", Multiple [Sim.img_gone; Sim.img_b]); ("b", Single Sim.img_a)]
         (initial Sim.world0))
  = Returns tt.
Proof.
  destruct (plain_actions_never_extract Sim.calm (Sim.cfg []) calm_is_tame
              [("a", Multiple [Sim.img_gone; Sim.img_b]);
               ("b", Single Sim.img_a)]
              (initial Sim.world0)) as [H _];
    [vm_compute; reflexivity | exact H].
Defined.

Lemma single_actions_send_one_request_each_witness :
  download_requests
    (trace (snd (download_actions Sim.calm (Sim.cfg [])
                   (singles [("a", Sim.img_gone); ("b", Sim.img_b)])
                   (initial Sim.world0))))
  = [EPost "http://h/gone" [] true; EGet "http://h/b.png" [] true].
Proof.
  destruct (single_actions_send_one_request_each Sim.calm (Sim.cfg [])
              calm_is_tame [("a", Sim.img_gone); ("b", Sim.img_b)]
              (initial Sim.world0)) as [_ H];
    [vm_compute; reflexivity | exact H].
Defined.

Lemma example_configuration_runs_witness :
  fst (main Sim.calm (ExampleConfig.config "20240101-120000")
         (initial Sim.world_httpbin))
  = Returns tt.
Proof.
  destruct (example_configuration_runs Sim.calm "20240101-120000"
              Sim.world_httpbin calm_is_tame)
    as (_ & _ & _ & H & _); [vm_compute; reflexivity | exact H].
Defined.

Lemma extraction_directory_edge_cases_witness :
  zip_file_contents_directory Sim.env (Sim.cfg []) Sim.plain_archive
  = local_path Sim.env (Sim.cfg []) Sim.plain_archive.
Proof.
  destruct (extraction_directory_edge_cases Sim.env (Sim.cfg [])
              Sim.plain_archive) as (_ & H & _).
  apply H. reflexivity.
Defined.
